(** * tt-focus (ahui2016/ctt): the event / lap model and its callers

    A shallow embedding of [src/tt/model.py] and of the event commands of
    [src/tt/util.py], followed by the properties of the specification that
    were checked against it.

    Conventions of the embedding.
    - A Python [int] is a [Z]; [//] is [Z.div] and [%] is [Z.modulo] (both
      floor, as in Python, for the positive divisors used here).
    - A Python [str] is a [string] holding its UTF-8 bytes; [bytes] is a
      [list byte].
    - A Python [dict] with string keys is a [gmap string PyVal].
    - A function that can raise returns in the monad [Py]; a function that
      returns a [result.Result] returns a [Result].
    - The clock ([now()]) and the random generator ([randrange]) are passed
      explicitly.
    - A command of util.py gives the storage behind its connection as the
      call leaves it, at its return or where it raises, together with what
      it printed. *)

From Stdlib Require Import ZArith List Bool Lia.
From Stdlib.Strings Require Import String Ascii Byte.
From Stdlib Require Import DecimalString.
From stdpp Require Import base option gmap strings fin_maps.
From Equations Require Import Equations.
Import ListNotations.

Local Open Scope string_scope.
Local Open Scope list_scope.
Local Open Scope Z_scope.

(** ** Python values, exceptions and results *)

Inductive PyExn : Type :=
| KeyError
| ValueError
| OverflowError
| IndexError
| TypeError
| AttributeError
| UnwrapError      (* [Result.unwrap()] on an [Err] *)
| NonTermination   (* a loop of the source that does not end *)
| NotModelled.     (* a value or format outside this embedding *)

Inductive Py (A : Type) : Type :=
| Ret (a : A)
| Raise (e : PyExn).
Arguments Ret {A} a.
Arguments Raise {A} e.

#[global] Instance Py_ret : MRet Py := fun A a => Ret a.
#[global] Instance Py_bind : MBind Py := fun A B f m =>
  match m with
  | Ret a => f a
  | Raise e => Raise e
  end.

(** [result.Result]: [Ok(value)] or [Err(error)]. *)
Inductive Result (T E : Type) : Type :=
| Ok (t : T)
| Err (e : E).
Arguments Ok {T E} t.
Arguments Err {T E} e.

(** [r.err()] *)
Definition err {T E} (r : Result T E) : option E :=
  match r with Ok _ => None | Err e => Some e end.

Inductive PyVal : Type :=
| VStr (s : string)
| VBytes (b : list byte)
| VInt (z : Z).

(** Truthiness of a value, as [if v:] tests it. *)
Definition truthy (v : PyVal) : bool :=
  match v with
  | VStr s => negb (String.eqb s "")
  | VBytes b => match b with [] => false | _ => true end
  | VInt z => negb (z =? 0)
  end.

(** ** model.py: identifiers *)

Module Ident.

Definition digits : string := "0123456789abcdefghijklmnopqrstuvwxyz".

(** [digits[i]]. *)
Definition digit_at (i : Z) : Py string :=
  if i <? 0 then
    match String.get (Z.to_nat (i + Z.of_nat (String.length digits))) digits with
    | Some c => Ret (String c EmptyString)
    | None => Raise IndexError
    end
  else
    match String.get (Z.to_nat i) digits with
    | Some c => Ret (String c EmptyString)
    | None => Raise IndexError
    end.

(** The number of binary digits of [num]: what the loop of [base_repr]
    consumes. *)
Definition bit_length (num : Z) : nat :=
  if Z_lt_dec 0 num then S (Z.to_nat (Z.log2 num)) else O.

(** The loop of [base_repr]:
    [while num: res.append(digits[num % base]); num //= base].
    [base_repr] enters it with [num = abs(number)] and [2 <= base]; outside
    that domain the Python loop does not end, which the last branch marks. *)
Equations? base_repr_loop (base num : Z) (res : list string) : Py (list string)
  by wf (bit_length num) lt :=
  base_repr_loop base num res with Z.eq_dec num 0 => {
    | left _ := Ret res
    | right _ with Z_lt_dec 0 num, Z_le_dec 2 base => {
      | left _, left _ :=
          match digit_at (num mod base) with
          | Ret d => base_repr_loop base (num / base) (res ++ [d])%list
          | Raise e => Raise e
          end
      | _, _ := Raise NonTermination } }.
Proof.
  unfold bit_length.
  destruct (Z_lt_dec 0 (num / base)) as [Hq|Hq]; destruct (Z_lt_dec 0 num); try lia.
  assert (2 * (num / base) <= num).
  { pose proof (Z.mul_div_le num base ltac:(lia)). nia. }
  assert (Z.log2 (2 * (num / base)) <= Z.log2 num) by (apply Z.log2_le_mono; lia).
  rewrite Z.log2_double in * by lia.
  pose proof (Z.log2_nonneg (num / base)). lia.
Qed.

(** ["0" * padding], as a value: no limit on the size of a str is
    modelled. *)
Definition str_repeat (s : string) (n : Z) : string :=
  String.concat "" (repeat s (Z.to_nat n)).

Definition base_repr (number base padding : Z) : Py string :=
  if Z.of_nat (String.length digits) <? base then Raise ValueError
  else if base <? 2 then Raise ValueError
  else
    let num := Z.abs number in
    res ← base_repr_loop base num [];
    let res := if negb (padding =? 0) then (res ++ [str_repeat "0" padding])%list else res in
    let res := if number <? 0 then (res ++ ["-"])%list else res in
    Ret (String.concat "" (rev (match res with [] => ["0"] | _ => res end))).

(** The value of one character as a digit of [int(s, base)]. *)
Definition digit_value (c : ascii) : option Z :=
  let n := Z.of_N (N_of_ascii c) in
  if (48 <=? n) && (n <=? 57) then Some (n - 48)
  else if (97 <=? n) && (n <=? 122) then Some (n - 87)
  else if (65 <=? n) && (n <=? 90) then Some (n - 55)
  else None.

Fixpoint int_digits (base acc : Z) (s : string) : Py Z :=
  match s with
  | EmptyString => Ret acc
  | String c s' =>
      match digit_value c with
      | Some v => if v <? base then int_digits base (acc * base + v) s'
                  else Raise ValueError
      | None => Raise ValueError
      end
  end.

(** [sys.get_int_max_str_digits()], at its default. *)
Definition int_max_str_digits : Z := 4300.

(** The bases 2, 4, 8, 16 and 32, which the limit on the digits of
    [int(s, base)] leaves out. *)
Definition power_of_two (base : Z) : bool := Z.land base (base - 1) =? 0.

(** [int(s, base)] for a base from 2 to 36, on a string of digits and
    letters (no sign, blanks or underscores, which the program never
    passes): [ValueError] on the empty string, on a string of more than
    [int_max_str_digits] characters when the base is not a power of two,
    and on a character that is not a digit of the base. *)
Definition py_int (s : string) (base : Z) : Py Z :=
  match s with
  | EmptyString => Raise ValueError
  | _ =>
      if negb (power_of_two base)
         && (int_max_str_digits <? Z.of_nat (String.length s))
      then Raise ValueError
      else int_digits base 0 s
  end.

(** [rand_id()] with the generator [randrange] passed in. *)
Definition rand_id (randrange : Z -> Z -> Z) : Py string :=
  n_min ← py_int "1000" 36;
  n_max ← py_int "zzzz" 36;
  let n_rand := randrange n_min (n_max + 1) in
  base_repr n_rand 36 0.

(** [date_id()] with the clock reading [now] passed in. *)
Definition date_id (now : Z) : Py string := base_repr now 36 0.

(** A character of [0-9a-z]. *)
Definition is_base36_char (c : ascii) : bool :=
  let n := Z.of_N (N_of_ascii c) in
  ((48 <=? n) && (n <=? 57)) || ((97 <=? n) && (n <=? 122)).

End Ident.

(** ** msgpack: the wire format used by [pack] and [unpack]

    [msgpack.packb] and [msgpack.unpackb(..., use_list=False)] on the values
    the program stores: integers, strings and tuples. Other formats (nil,
    booleans, floats, bin, ext, maps) are outside the embedding. *)

Module Msgpack.

#[warnings="-register-all"] Inductive obj : Type :=
| OInt (z : Z)
| OStr (s : string)
| OArr (l : list obj).   (* a tuple, or a list when packing *)

Definition Z_of_byte (b : byte) : Z := Z.of_N (Byte.to_N b).

(** The byte whose unsigned value is [z mod 256] (two's complement for a
    negative [z]). *)
Definition byte_of_Z (z : Z) : byte :=
  match Byte.of_N (Z.to_N (z mod 256)) with
  | Some b => b
  | None => x00
  end.

(** [n] bytes, big endian, as [struct.pack(">H" / ">I" / ">Q" ...)]. *)
Fixpoint be_bytes (n : nat) (z : Z) : list byte :=
  match n with
  | O => []
  | S n' => byte_of_Z (z / 256 ^ Z.of_nat n') :: be_bytes n' z
  end.

Definition be_value (bs : list byte) : Z :=
  fold_left (fun acc b => acc * 256 + Z_of_byte b) bs 0.

Definition pack_int (z : Z) : Py (list byte) :=
  if bool_decide (0 <= z < 0x80) then Ret [byte_of_Z z]
  else if bool_decide (-0x20 <= z < 0) then Ret [byte_of_Z z]
  else if bool_decide (0x80 <= z <= 0xff) then Ret (xcc :: be_bytes 1 z)
  else if bool_decide (-0x80 <= z < 0) then Ret (xd0 :: be_bytes 1 z)
  else if bool_decide (0xff < z <= 0xffff) then Ret (xcd :: be_bytes 2 z)
  else if bool_decide (-0x8000 <= z < -0x80) then Ret (xd1 :: be_bytes 2 z)
  else if bool_decide (0xffff < z <= 0xffffffff) then Ret (xce :: be_bytes 4 z)
  else if bool_decide (-0x80000000 <= z < -0x8000) then Ret (xd2 :: be_bytes 4 z)
  else if bool_decide (0xffffffff < z <= 0xffffffffffffffff) then Ret (xcf :: be_bytes 8 z)
  else if bool_decide (-0x8000000000000000 <= z < -0x80000000) then Ret (xd3 :: be_bytes 8 z)
  else Raise OverflowError.

Definition pack_raw_header (n : Z) : Py (list byte) :=
  if bool_decide (n <= 0x1f) then Ret [byte_of_Z (0xa0 + n)]
  else if bool_decide (n <= 0xff) then Ret (xd9 :: be_bytes 1 n)
  else if bool_decide (n <= 0xffff) then Ret (xda :: be_bytes 2 n)
  else if bool_decide (n <= 0xffffffff) then Ret (xdb :: be_bytes 4 n)
  else Raise ValueError.

Definition pack_str (s : string) : Py (list byte) :=
  let raw := list_byte_of_string s in
  let n := Z.of_nat (length raw) in
  if bool_decide (2 ^ 32 <= n) then Raise ValueError
  else
    hdr ← pack_raw_header n;
    Ret (hdr ++ raw)%list.

Definition pack_array_header (n : Z) : Py (list byte) :=
  if bool_decide (n <= 0x0f) then Ret [byte_of_Z (0x90 + n)]
  else if bool_decide (n <= 0xffff) then Ret (xdc :: be_bytes 2 n)
  else if bool_decide (n <= 0xffffffff) then Ret (xdd :: be_bytes 4 n)
  else Raise ValueError.

Definition DEFAULT_RECURSE_LIMIT : Z := 511.

(** [for i in range(n): self._pack(obj[i], nest_limit - 1)] *)
Definition pack_items (pack_item : obj -> Py (list byte)) : list obj -> Py (list byte) :=
  fix items (l : list obj) : Py (list byte) :=
    match l with
    | [] => Ret []
    | x :: l' =>
        a ← pack_item x;
        b ← items l';
        Ret (a ++ b)%list
    end.

Fixpoint pack_obj (o : obj) (nest_limit : Z) {struct o} : Py (list byte) :=
  if bool_decide (nest_limit < 0) then Raise ValueError
  else
    match o with
    | OInt z => pack_int z
    | OStr s => pack_str s
    | OArr l =>
        hdr ← pack_array_header (Z.of_nat (length l));
        body ← pack_items (fun x => pack_obj x (nest_limit - 1)) l;
        Ret (hdr ++ body)%list
    end.

Definition packb (o : obj) : Py (list byte) := pack_obj o DEFAULT_RECURSE_LIMIT.

(** Reading: [n] raw bytes, an unsigned and a signed big-endian number. *)
Definition read_bytes (n : Z) (bs : list byte) : Py (list byte * list byte) :=
  if bool_decide (Z.of_nat (length bs) < n) then Raise ValueError
  else Ret (firstn (Z.to_nat n) bs, skipn (Z.to_nat n) bs).

Definition read_uint (n : nat) (bs : list byte) : Py (Z * list byte) :=
  '(h, r) ← read_bytes (Z.of_nat n) bs;
  Ret (be_value h, r).

Definition read_int (n : nat) (bs : list byte) : Py (Z * list byte) :=
  '(u, r) ← read_uint n bs;
  Ret (if bool_decide (u < 2 ^ (8 * Z.of_nat n - 1)) then u
       else u - 2 ^ (8 * Z.of_nat n), r).

(** A str of [n] bytes. The bytes are kept as they are, a str being held as
    its UTF-8 bytes; bytes that are not UTF-8, which [pack] never writes
    and on which msgpack raises [UnicodeDecodeError], are outside the
    embedding. *)
Definition read_str (n : Z) (bs : list byte) : Py (obj * list byte) :=
  '(h, r) ← read_bytes n bs;
  Ret (OStr (string_of_list_byte h), r).

(** [k] objects in a row, each read by [read]. *)
Fixpoint read_items (read : list byte -> Py (obj * list byte)) (k : nat)
  (bs : list byte) : Py (list obj * list byte) :=
  match k with
  | O => Ret ([], bs)
  | S k' =>
      '(x, r) ← read bs;
      '(xs, r') ← read_items read k' r;
      Ret (x :: xs, r')
  end.

Definition read_array (read : list byte -> Py (obj * list byte)) (n : Z)
  (bs : list byte) : Py (obj * list byte) :=
  '(l, r) ← read_items read (Z.to_nat n) bs;
  Ret (OArr l, r).

(** One object from the front of [bs]. [fuel] bounds the nesting depth; the
    caller gives more than the input can nest. *)
Fixpoint unpack_obj (fuel : nat) (bs : list byte) : Py (obj * list byte) :=
  match fuel with
  | O => Raise NotModelled
  | S fuel' =>
      match bs with
      | [] => Raise ValueError
      | b :: rest =>
          let t := Z_of_byte b in
          if bool_decide (t < 0x80) then Ret (OInt t, rest)
          else if bool_decide (0xe0 <= t) then Ret (OInt (t - 256), rest)
          else if bool_decide (0xa0 <= t <= 0xbf) then read_str (t - 0xa0) rest
          else if bool_decide (0x90 <= t <= 0x9f) then
            read_array (unpack_obj fuel') (t - 0x90) rest
          else if bool_decide (t = 0xcc) then
            '(v, r) ← read_uint 1 rest; Ret (OInt v, r)
          else if bool_decide (t = 0xcd) then
            '(v, r) ← read_uint 2 rest; Ret (OInt v, r)
          else if bool_decide (t = 0xce) then
            '(v, r) ← read_uint 4 rest; Ret (OInt v, r)
          else if bool_decide (t = 0xcf) then
            '(v, r) ← read_uint 8 rest; Ret (OInt v, r)
          else if bool_decide (t = 0xd0) then
            '(v, r) ← read_int 1 rest; Ret (OInt v, r)
          else if bool_decide (t = 0xd1) then
            '(v, r) ← read_int 2 rest; Ret (OInt v, r)
          else if bool_decide (t = 0xd2) then
            '(v, r) ← read_int 4 rest; Ret (OInt v, r)
          else if bool_decide (t = 0xd3) then
            '(v, r) ← read_int 8 rest; Ret (OInt v, r)
          else if bool_decide (t = 0xd9) then
            '(n, r) ← read_uint 1 rest; read_str n r
          else if bool_decide (t = 0xda) then
            '(n, r) ← read_uint 2 rest; read_str n r
          else if bool_decide (t = 0xdb) then
            '(n, r) ← read_uint 4 rest; read_str n r
          else if bool_decide (t = 0xdc) then
            '(n, r) ← read_uint 2 rest; read_array (unpack_obj fuel') n r
          else if bool_decide (t = 0xdd) then
            '(n, r) ← read_uint 4 rest; read_array (unpack_obj fuel') n r
          else Raise NotModelled
      end
  end.

(** [unpackb(data, use_list=False)]: one object, and nothing after it. *)
Definition unpackb (data : list byte) : Py obj :=
  '(o, r) ← unpack_obj (S (length data)) data;
  match r with
  | [] => Ret o
  | _ :: _ => Raise ValueError
  end.

End Msgpack.

(** ** re: a pattern that is one character class *)

Module Re.

Inductive ClassItem : Type :=
| Chr (c : ascii)
| Range (lo hi : ascii).

Record CharClass : Type := { negated : bool; items : list ClassItem }.

Definition item_matches (c : ascii) (it : ClassItem) : bool :=
  match it with
  | Chr x => Ascii.eqb c x
  | Range lo hi =>
      (N_of_ascii lo <=? N_of_ascii c)%N && (N_of_ascii c <=? N_of_ascii hi)%N
  end.

Definition class_matches (cls : CharClass) (c : ascii) : bool :=
  xorb (negated cls) (existsb (item_matches c) (items cls)).

Fixpoint search_from (cls : CharClass) (s : string) (pos : nat) : option nat :=
  match s with
  | EmptyString => None
  | String c s' =>
      if class_matches cls c then Some pos else search_from cls s' (S pos)
  end.

(** [pattern.search(s)]: the position of the first match, or [None]. *)
Definition search (cls : CharClass) (s : string) : option nat :=
  search_from cls s 0.

Fixpoint all_match (cls : CharClass) (s : string) : bool :=
  match s with
  | EmptyString => true
  | String c s' => class_matches cls c && all_match cls s'
  end.

(** The whole of [s] matches [cls+]: one or more characters of the class. *)
Definition fullmatch_plus (cls : CharClass) (s : string) : bool :=
  match s with
  | EmptyString => false
  | _ => all_match cls s
  end.

(** The whole of [s] matches [cls*]. *)
Definition fullmatch_star (cls : CharClass) (s : string) : bool :=
  all_match cls s.

End Re.

(** ** model.py: configuration, tasks and events *)

Record MultiText : Type := { cn : string; en : string }.

Inductive Lang : Type := lang_cn | lang_en.

(** [text[lang]] *)
Definition text (lang : Lang) (m : MultiText) : string :=
  match lang with lang_cn => cn m | lang_en => en m end.

Definition OK {E : Type} : Result string E := Ok "OK".

(** [re.compile(r"[^_0-9a-zA-Z\-]")] *)
Definition NameForbidPattern : Re.CharClass :=
  {| Re.negated := true;
     Re.items := [Re.Chr "_"; Re.Range "0" "9"; Re.Range "a" "z";
                  Re.Range "A" "Z"; Re.Chr "-"] |}.

(** The pattern of the specification, [[-_0-9a-zA-Z]], to which the
    specification applies [+]. *)
Definition SpecNameClass : Re.CharClass :=
  {| Re.negated := false;
     Re.items := [Re.Chr "-"; Re.Chr "_"; Re.Range "0" "9";
                  Re.Range "a" "z"; Re.Range "A" "Z"] |}.

Record Config : Type := {
  split_min : Z;   (* minutes *)
  pause_min : Z;   (* minutes *)
  pause_max : Z    (* minutes *)
}.

Definition default_cfg : Config :=
  {| split_min := 5; pause_min := 5; pause_max := 60 |}.

Inductive EventStatus : Type := Running | Pausing | Stopped.

Definition EventStatus_name (st : EventStatus) : string :=
  match st with
  | Running => "Running"
  | Pausing => "Pausing"
  | Stopped => "Stopped"
  end.

(** [EventStatus[name]] *)
Definition EventStatus_of_name (name : string) : Py EventStatus :=
  if String.eqb name "Running" then Ret Running
  else if String.eqb name "Pausing" then Ret Pausing
  else if String.eqb name "Stopped" then Ret Stopped
  else Raise KeyError.

Inductive LapName : Type := Split | Pause.

Definition LapName_name (k : LapName) : string :=
  match k with Split => "Split" | Pause => "Pause" end.

(** [(name, start, end, length)] *)
Definition Lap : Type := string * Z * Z * Z.

Definition lap_name (l : Lap) : string := let '(n, _, _, _) := l in n.
Definition lap_start (l : Lap) : Z := let '(_, s, _, _) := l in s.
Definition lap_end (l : Lap) : Z := let '(_, _, e, _) := l in e.
Definition lap_length (l : Lap) : Z := let '(_, _, _, len) := l in len.

Definition name_error : MultiText :=
  {| cn := "名称只允许由 0-9a-zA-Z 以及下划线、短横线组成";
     en := "The name may only contain -, _, 0-9, a-z, A-Z" |}.

Definition check_name (name : string) : Result string MultiText :=
  match Re.search NameForbidPattern name with
  | None => OK
  | Some _ => Err name_error
  end.

Record Task : Type := { Task_id : string; Task_name : string; Task_alias : string }.

(** The values of a lap tuple as msgpack objects and back. *)
Definition obj_of_lap (l : Lap) : Msgpack.obj :=
  let '(n, s, e, len) := l in
  Msgpack.OArr [Msgpack.OStr n; Msgpack.OInt s; Msgpack.OInt e; Msgpack.OInt len].

Definition obj_of_laps (ls : list Lap) : Msgpack.obj :=
  Msgpack.OArr (map obj_of_lap ls).

Definition lap_of_obj (o : Msgpack.obj) : option Lap :=
  match o with
  | Msgpack.OArr [Msgpack.OStr n; Msgpack.OInt s; Msgpack.OInt e; Msgpack.OInt len] =>
      Some (n, s, e, len)
  | _ => None
  end.

Fixpoint laps_of_objs (os : list Msgpack.obj) : option (list Lap) :=
  match os with
  | [] => Some []
  | o :: os' =>
      match lap_of_obj o, laps_of_objs os' with
      | Some l, Some ls => Some (l :: ls)
      | _, _ => None
      end
  end.

Definition laps_of_obj (o : Msgpack.obj) : option (list Lap) :=
  match o with
  | Msgpack.OArr os => laps_of_objs os
  | _ => None
  end.

(** [pack(obj)] and [unpack(data)] of model.py. *)
Definition pack (o : Msgpack.obj) : Py (list byte) := Msgpack.packb o.
Definition unpack (data : list byte) : Py Msgpack.obj := Msgpack.unpackb data.

(** A dictionary value read at a [str]-typed place. *)
Definition as_str (v : PyVal) : Py string :=
  match v with
  | VStr s => Ret s
  | _ => Raise NotModelled
  end.

Definition as_int (v : PyVal) : Py Z :=
  match v with
  | VInt z => Ret z
  | _ => Raise NotModelled
  end.

(** [d.get(key, default)] at a [str]-typed place. *)
Definition get_str (d : gmap string PyVal) (key : string) (default : string) : Py string :=
  match d !! key with
  | Some v => as_str v
  | None => Ret default
  end.

(** [d[key]] at a [str]-typed place. *)
Definition item_str (d : gmap string PyVal) (key : string) : Py string :=
  match d !! key with
  | Some v => as_str v
  | None => Raise KeyError
  end.

Definition new_task (d : gmap string PyVal) (randrange : Z -> Z -> Z)
  : Py (Result Task MultiText) :=
  fresh ← Ident.rand_id randrange;
  t_id ← get_str d "id" fresh;
  name ← item_str d "name";
  alias ← get_str d "alias" "";
  let task := {| Task_id := t_id; Task_name := name; Task_alias := alias |} in
  match err (check_name name) with
  | None => Ret (Ok task)
  | Some e => Ret (Err e)
  end.

Record Event : Type := {
  id : string;
  task_id : string;
  status : EventStatus;
  laps : list Lap;
  work : Z   (* seconds *)
}.

(** [Event(d)]. [now_id] is the clock reading of [date_id()], [now_lap] the
    one of the initial lap. *)
Definition Event_init (d : gmap string PyVal) (now_id now_lap : Z) : Py Event :=
  fresh ← Ident.date_id now_id;
  eid ← get_str d "id" fresh;
  tid ← item_str d "task_id";
  status_name ← get_str d "status" "Running";
  st ← EventStatus_of_name status_name;
  let lap : Lap := (LapName_name Split, now_lap, 0, 0) in
  ls ← match d !! "laps" with
       | Some v =>
           if truthy v then
             match v with
             | VBytes data =>
                 o ← unpack data;
                 match laps_of_obj o with
                 | Some ls => Ret ls
                 | None => Raise NotModelled
                 end
             | _ => Raise TypeError
             end
           else Ret [lap]
       | None => Ret [lap]
       end;
  w ← match d !! "work" with
      | Some v => as_int v
      | None => Ret 0
      end;
  Ret {| id := eid; task_id := tid; status := st; laps := ls; work := w |}.

Definition to_dict (e : Event) : Py (gmap string PyVal) :=
  packed ← pack (obj_of_laps (laps e));
  Ret (<["id" := VStr (id e)]>
       (<["task_id" := VStr (task_id e)]>
       (<["status" := VStr (EventStatus_name (status e))]>
       (<["laps" := VBytes packed]>
       (<["work" := VInt 0]> ∅))))).

(** ** The lap ledger and the event state machine

    [util.py] calls [event.split(cfg)] and [event.stop(cfg)], but the
    methods of [Event] that move the state machine are not in [model.py] as
    given. They are modelled here from sections 4.1 and 4.2 of the
    specification. *)

(** Modelled from the spec: the error taxonomy of section 7, for the
    methods below. *)
Inductive CoreError : Type :=
| InvalidNameError
| NotFoundError
| ConflictError
| InvalidStateError.

(** Modelled from the spec: [open(kind, at)] of the Lap Ledger, missing
    from model.py; "appends a new open lap (kind, at, 0, 0)". *)
Definition ledger_open (kind : LapName) (t : Z) (l : list Lap) : list Lap :=
  (l ++ [(LapName_name kind, t, 0, 0)])%list.

(** Modelled from the spec: [close(at)] of the Lap Ledger, missing from
    model.py; "closes the current open lap, setting end=at,
    length=at-start. Precondition: an open lap exists" ([None] when the
    last lap is not open). *)
Definition ledger_close (t : Z) (l : list Lap) : option (list Lap) :=
  match rev l with
  | (n, s, e, _) :: pre =>
      if e =? 0 then Some (rev pre ++ [(n, s, t, t - s)])%list else None
  | [] => None
  end.

Definition lap_closed (l : Lap) : bool := negb (lap_end l =? 0).

(** Modelled from the spec: [total_work()] of the Lap Ledger, missing from
    model.py; "sum of length over all closed laps whose kind == Split". *)
Definition total_work (l : list Lap) : Z :=
  fold_right
    (fun lap acc =>
       if String.eqb (lap_name lap) (LapName_name Split) && lap_closed lap
       then lap_length lap + acc else acc)
    0 l.

(** Modelled from the spec: the discard rule of a Split lap, missing from
    model.py; "if its length < split_min minutes, the lap is discarded". *)
Definition split_discarded (cfg : Config) (lap : Lap) : bool :=
  bool_decide (lap_length lap < split_min cfg * 60).

(** Modelled from the spec: the discard rule of a Pause lap, missing from
    model.py; "if the pause length < pause_min minutes OR > pause_max
    minutes, the pause lap is discarded". *)
Definition pause_discarded (cfg : Config) (lap : Lap) : bool :=
  bool_decide (lap_length lap < pause_min cfg * 60 \/
               lap_length lap > pause_max cfg * 60).

(** Modelled from the spec: "the relevant discard rule (split_min for
    Split, pause_min/pause_max for Pause)", missing from model.py. *)
Definition kind_discarded (cfg : Config) (lap : Lap) : bool :=
  if String.eqb (lap_name lap) (LapName_name Pause) then pause_discarded cfg lap
  else split_discarded cfg lap.

(** Modelled from the spec: closing the open lap at [t] under a discard
    rule, missing from model.py; the closed lap stays in the ledger unless
    the rule discards it. *)
Definition close_lap (rule : Lap -> bool) (t : Z) (l : list Lap)
  : option (list Lap) :=
  match ledger_close t l with
  | Some l' =>
      match rev l' with
      | lap :: pre => Some (if rule lap then rev pre else l')
      | [] => None
      end
  | None => None
  end.

Definition with_ledger (e : Event) (st : EventStatus) (l : list Lap) (w : Z) : Event :=
  {| id := id e; task_id := task_id e; status := st; laps := l; work := w |}.

(** Modelled from the spec: [Event.split], missing from model.py; "valid
    only in Running. Closes the current Split lap at now; if its length <
    split_min minutes, the lap is discarded. Opens a new Split lap at now.
    Remains Running". *)
Definition Event_split (cfg : Config) (now : Z) (e : Event) : Result Event CoreError :=
  match status e with
  | Running =>
      match close_lap (split_discarded cfg) now (laps e) with
      | Some l => Ok (with_ledger e Running (ledger_open Split now l) (work e))
      | None => Err InvalidStateError
      end
  | _ => Err InvalidStateError
  end.

(** Modelled from the spec: [Event.pause], missing from model.py; "valid
    only in Running. Closes current Split lap (applying the same split_min
    discard rule), opens a Pause lap at now. Transitions to Pausing". *)
Definition Event_pause (cfg : Config) (now : Z) (e : Event) : Result Event CoreError :=
  match status e with
  | Running =>
      match close_lap (split_discarded cfg) now (laps e) with
      | Some l => Ok (with_ledger e Pausing (ledger_open Pause now l) (work e))
      | None => Err InvalidStateError
      end
  | _ => Err InvalidStateError
  end.

(** Modelled from the spec: [Event.resume], missing from model.py; "valid
    only in Pausing. Closes the Pause lap at now [under the pause_min /
    pause_max rule]. Opens a new Split lap at now. Transitions to
    Running". *)
Definition Event_resume (cfg : Config) (now : Z) (e : Event) : Result Event CoreError :=
  match status e with
  | Pausing =>
      match close_lap (pause_discarded cfg) now (laps e) with
      | Some l => Ok (with_ledger e Running (ledger_open Split now l) (work e))
      | None => Err InvalidStateError
      end
  | _ => Err InvalidStateError
  end.

(** Modelled from the spec: [Event.stop], missing from model.py; "valid in
    Running or Pausing. Closes the current open lap applying the relevant
    discard rule. Sets work = total_work(). Transitions to Stopped". *)
Definition Event_stop (cfg : Config) (now : Z) (e : Event) : Result Event CoreError :=
  match status e with
  | Stopped => Err InvalidStateError
  | _ =>
      match close_lap (kind_discarded cfg) now (laps e) with
      | Some l => Ok (with_ledger e Stopped l (total_work l))
      | None => Err InvalidStateError
      end
  end.

(** A run of [split()] calls at the clock readings [ts]; the events after
    each call, oldest first. *)
Fixpoint split_run (cfg : Config) (ts : list Z) (e : Event) : list (Result Event CoreError) :=
  match ts with
  | [] => []
  | t :: ts' =>
      match Event_split cfg t e with
      | Ok e' => Ok e' :: split_run cfg ts' e'
      | Err x => [Err x]
      end
  end.

(** ** The persistence gateway

    [db.py] is not among the sources. The storage is modelled from
    section 6 of the specification: tasks, and events in creation order. *)

Module Db.

(** Modelled from the spec: what the gateway stores; the connection stands
    for the database it opens. *)
Record Conn : Type := { tasks : list Task; events : list Event }.

(** Modelled from the spec: the error of a lookup that finds nothing. The
    text of db.py's messages is not known; the specification names the
    error. *)
Definition not_found : MultiText := {| cn := "NotFoundError"; en := "NotFoundError" |}.

(** Modelled from the spec: [db.get_last_event], not among the sources;
    "most recently created, fails if none exist". *)
Definition get_last_event (conn : Conn) : Result Event MultiText :=
  match rev (events conn) with
  | e :: _ => Ok e
  | [] => Err not_found
  end.

(** Modelled from the spec: [db.insert_event], not among the sources. *)
Definition insert_event (conn : Conn) (e : Event) : Conn :=
  {| tasks := tasks conn; events := (events conn ++ [e])%list |}.

(** Modelled from the spec: [db.update_laps], not among the sources; "persists
    the serialized Lap Ledger and status" of the event with that id. *)
Definition update_laps (conn : Conn) (e : Event) : Conn :=
  {| tasks := tasks conn;
     events := map (fun r => if String.eqb (id r) (id e)
                             then with_ledger r (status e) (laps e) (work r)
                             else r) (events conn) |}.

(** Modelled from the spec: [db.delete_event], not among the sources. *)
Definition delete_event (conn : Conn) (eid : string) : Conn :=
  {| tasks := tasks conn;
     events := List.filter (fun r => negb (String.eqb (id r) eid)) (events conn) |}.

(** Modelled from the spec: [db.get_task_by_name], not among the sources;
    "fail with NotFoundError when absent". *)
Definition get_task_by_name (conn : Conn) (name : string) : Result Task MultiText :=
  match List.find (fun t => String.eqb (Task_name t) name) (tasks conn) with
  | Some t => Ok t
  | None => Err not_found
  end.

(** Modelled from the spec: [db.get_task_by_id], not among the sources. *)
Definition get_task_by_id (conn : Conn) (tid : string) : Result Task MultiText :=
  match List.find (fun t => String.eqb (Task_id t) tid) (tasks conn) with
  | Some t => Ok t
  | None => Err not_found
  end.

End Db.

(** [r.unwrap()] *)
Definition unwrap {T E} (r : Result T E) : Py T :=
  match r with
  | Ok t => Ret t
  | Err _ => Raise UnwrapError
  end.

(** ** util.py: durations *)

(** [datetime.timedelta], normalised: days, seconds in a day,
    microseconds in a second. *)
Record timedelta : Type := {
  td_days : Z;
  td_seconds : Z;
  td_microseconds : Z
}.

(** [timedelta(days)], the constructor with its first positional
    argument only. *)
Definition timedelta_of_days (days : Z) : Py timedelta :=
  if bool_decide (Z.abs days > 999999999) then Raise OverflowError
  else Ret {| td_days := days; td_seconds := 0; td_microseconds := 0 |}.

(** ["%d" % n] *)
Definition decimal (n : Z) : string := NilZero.string_of_int (Z.to_int n).

(** ["%02d" % n] and ["%06d" % n] for [n] that is not negative. *)
Definition decimal_padded (width : nat) (n : Z) : string :=
  let s := decimal n in
  (String.concat "" (repeat "0" (width - String.length s)) ++ s)%string.

(** [str(td)] *)
Definition timedelta_str (td : timedelta) : string :=
  let mm := td_seconds td / 60 in
  let ss := td_seconds td mod 60 in
  let hh := mm / 60 in
  let mm := mm mod 60 in
  let s := (decimal hh ++ ":" ++ decimal_padded 2 mm ++ ":" ++ decimal_padded 2 ss)%string in
  let plural : string := if negb (Z.abs (td_days td) =? 1) then "s" else "" in
  let s :=
    if negb (td_days td =? 0)
    then (decimal (td_days td) ++ " day" ++ plural ++ ", " ++ s)%string
    else s in
  if negb (td_microseconds td =? 0)
  then (s ++ "." ++ decimal_padded 6 (td_microseconds td))%string
  else s.

(** [format_time_len(s)]: [str(timedelta(s))]. *)
Definition format_time_len (s : Z) : Py string :=
  td ← timedelta_of_days s;
  Ret (timedelta_str td).

(** ** util.py: the event commands

    A command acts on the storage behind its connection and prints, and it
    may raise after it has written or printed. So a command gives the
    storage as the call leaves it, and an [Out]: what was printed, and its
    value or the exception raised. Whether the transaction of the caller
    keeps the writes of a call that raised is decided in db.py and by the
    caller, and is not part of these functions. *)

(** What is printed by one [print]. The lines that [show_running_status]
    renders with arrow are kept by their inputs. *)
Inductive Printed : Type :=
| PText (s : string)
| PStatusHeader (task : Task) (event : Event) (started now : Z) (work : string)
                (lang : Lang)
| PLapLine (lap : Lap) (length : string).

Definition Out (A : Type) : Type := list Printed * Py A.

Definition out_ret {A} (a : A) : Out A := ([], Ret a).

Definition out_bind {A B} (m : Out A) (k : A -> Out B) : Out B :=
  match m with
  | (o, Ret a) => let '(o', r) := k a in (o ++ o', r)
  | (o, Raise x) => (o, Raise x)
  end.

(** A computation that prints nothing. *)
Definition quiet {A} (m : Py A) : Out A := ([], m).

(** [print(p)] *)
Definition print (p : Printed) : Out unit := ([p], Ret tt).

Notation "x <-- m ;; k" := (out_bind m (fun x => k))
  (at level 100, m at next level, right associativity).

(** [event.started]. [Event] has no attribute of this name in model.py,
    and the specification describes none: reading it raises
    [AttributeError]. *)
Definition Event_started (e : Event) : Py Z := Raise AttributeError.

(** The reply of [event_start]: a fixed text, or the "started" line, which
    is rendered from the event, the task and [event.started]. *)
Inductive StartReply : Type :=
| ReplyText (m : MultiText)
| ReplyStarted (event : Event) (task : Task) (started : Z).

Definition cannot_start : MultiText :=
  {| cn := "不可启动新事件，因为上一个事件未结束 (可使用 'tt status' 查看状态)";
     en := "Cannot make a new event. Try 'tt status' to get more information." |}.

Definition check_last_event_stopped (conn : Db.Conn) : Result string MultiText :=
  match Db.get_last_event conn with
  | Err _ => OK
  | Ok event =>
      match status event with
      | Stopped => OK
      | _ => Err cannot_start
      end
  end.

Definition task_not_found (name : string) : MultiText :=
  {| cn := ("不存在任务类型: " ++ name ++ ", 可使用 'tt add " ++ name
            ++ "' 添加此任务类型。")%string;
     en := ("Not Found: " ++ name ++ ". Try 'tt add " ++ name
            ++ "' to add it as a task type.")%string |}.

(** [event_start(conn, name)]: the storage it leaves, and its reply or the
    exception it raises. *)
Definition event_start (conn : Db.Conn) (name : string) (now_id now_lap : Z)
  : Db.Conn * Py StartReply :=
  match err (check_last_event_stopped conn) with
  | Some e => (conn, Ret (ReplyText e))
  | None =>
      match Db.get_task_by_name conn name with
      | Err _ => (conn, Ret (ReplyText (task_not_found name)))
      | Ok task =>
          match Event_init {[ "task_id" := VStr (Task_id task) ]} now_id now_lap with
          | Raise x => (conn, Raise x)
          | Ret event =>
              let conn := Db.insert_event conn event in
              (conn,
               started ← Event_started event;
               Ret (ReplyStarted event task started))
          end
      end
  end.

Definition no_running_event : MultiText :=
  {| cn := "当前无正在计时的事件，可使用 'tt start TASK' 启动一个事件。";
     en := "No running event. Try 'tt start Task' to make an event." |}.

Definition get_last_event (conn : Db.Conn) : Result Event MultiText :=
  match Db.get_last_event conn with
  | Err e => Err e
  | Ok event =>
      match status event with
      | Stopped => Err no_running_event
      | _ => Ok event
      end
  end.

Definition stopped_status : MultiText :=
  {| cn := "当前无正在计时的任务，可使用 'tt list -e' 查看最近的事件。";
     en := "No event running. Try 'tt list -e' to list out recent events." |}.

Definition show_stopped_status (lang : Lang) : Out unit :=
  print (PText (text lang stopped_status)).

Definition footer_running : MultiText :=
  {| cn := "可接受命令: pause/split/stop"; en := "Waiting for pause/split/stop" |}.

Definition footer_pausing : MultiText :=
  {| cn := "可接受命令: resume/stop"; en := "Waiting for resume/stop" |}.

Definition footer_stopped : MultiText :=
  {| cn := "该事件已结束。"; en := "The event above has stopped." |}.

(** [for lap in event.laps: print(...)] *)
Fixpoint show_laps (ls : list Lap) : Out unit :=
  match ls with
  | [] => out_ret tt
  | lap :: ls' =>
      len <-- quiet (format_time_len (lap_length lap));;
      _ <-- print (PLapLine lap len);;
      show_laps ls'
  end.

Definition show_running_status (conn : Db.Conn) (event : Event) (task : option Task)
  (lang : Lang) (now : Z) : Out unit :=
  task <-- quiet (match task with
                  | None => unwrap (Db.get_task_by_id conn (task_id event))
                  | Some t => Ret t
                  end);;
  started <-- quiet (Event_started event);;
  work <-- quiet (format_time_len (work event));;
  _ <-- print (PStatusHeader task event started now work lang);;
  _ <-- show_laps (laps event);;
  _ <-- print (PText (text lang match status event with
                                | Running => footer_running
                                | Pausing => footer_pausing
                                | Stopped => footer_stopped
                                end));;
  print (PText "").

Definition show_status (conn : Db.Conn) (lang : Lang) (now : Z) : Out unit :=
  match Db.get_last_event conn with
  | Err e => print (PText (text lang e))
  | Ok event =>
      task <-- quiet (unwrap (Db.get_task_by_id conn (task_id event)));;
      match status event with
      | Stopped => show_stopped_status lang
      | _ => show_running_status conn event (Some task) lang now
      end
  end.

(** [event.split(cfg)] and [event.stop(cfg)]: model.py defines no such
    method of [Event]. The method is a parameter of the command that calls
    it: from the configuration, the clock reading it takes and the event,
    the event as the call leaves it, or the exception it raises. *)
Definition EventMethod : Type := Config -> Z -> Event -> Py Event.

(** The method as model.py has it: [Event] has no attribute of the
    name. *)
Definition method_absent : EventMethod := fun _ _ _ => Raise AttributeError.

Definition in_place (e : Event) (r : Result Event CoreError) : Event :=
  match r with Ok e' => e' | Err _ => e end.

(** Modelled from the spec: a method that acts as section 4.2 describes;
    its value is not used by the commands, and a transition that fails
    leaves the event as it was. *)
Definition method_of_spec (m : Config -> Z -> Event -> Result Event CoreError)
  : EventMethod :=
  fun cfg now e => Ret (in_place e (m cfg now e)).

Definition event_split (split : EventMethod) (conn : Db.Conn) (cfg : Config)
  (lang : Lang) (now now_shown : Z) : Db.Conn * Out unit :=
  match get_last_event conn with
  | Err e => (conn, print (PText (text lang e)))
  | Ok event =>
      match split cfg now event with
      | Raise x => (conn, quiet (Raise x))
      | Ret event =>
          let conn := Db.update_laps conn event in
          (conn, show_status conn lang now_shown)
      end
  end.

Definition auto_deleted : MultiText :=
  {| cn := ("以下所示事件，由于总工作时长小于下限，已自动删除。" ++ String "010" ""
            ++ "可使用命令 'tt help min' 查看关于时长下限的说明。" ++ String "010" "")%string;
     en := ("The event below is automatically deleted." ++ String "010" ""
            ++ "Run 'tt help min' to get more information." ++ String "010" "")%string |}.

Definition event_stop (stop : EventMethod) (conn : Db.Conn) (cfg : Config)
  (lang : Lang) (now now_shown : Z) : Db.Conn * Out unit :=
  match get_last_event conn with
  | Err e => (conn, print (PText (text lang e)))
  | Ok event =>
      match stop cfg now event with
      | Raise x => (conn, quiet (Raise x))
      | Ret event =>
          let conn := Db.update_laps conn event in
          if bool_decide (work event <= split_min cfg) then
            match (_ <-- print (PText (text lang auto_deleted));;
                   show_running_status conn event None lang now_shown) with
            | (out, Ret _) => (Db.delete_event conn (id event), (out, Ret tt))
            | (out, Raise x) => (conn, (out, Raise x))
            end
          else
            (conn, show_running_status conn event None lang now_shown)
      end
  end.

(** ** Predicates used by the statements *)

(** The result is a string of exactly four characters of [0-9a-z]. *)
Definition four_base36 (r : Py string) : Prop :=
  exists s, r = Ret s /\ String.length s = 4%nat /\
            Forall (fun c => Ident.is_base36_char c = true) (list_ascii_of_string s).

(** [unpack(pack(obj))] *)
Definition unpack_pack (o : Msgpack.obj) : Py Msgpack.obj :=
  data ← pack o;
  unpack data.

(** The integers msgpack has a format for. *)
Definition msgpack_int (z : Z) : Prop := - 2 ^ 63 <= z < 2 ^ 64.

Definition lap_packable (l : Lap) : Prop :=
  Z.of_nat (String.length (lap_name l)) < 2 ^ 32 /\
  msgpack_int (lap_start l) /\ msgpack_int (lap_end l) /\ msgpack_int (lap_length l).

Definition laps_packable (ls : list Lap) : Prop :=
  Z.of_nat (length ls) < 2 ^ 32 /\ Forall lap_packable ls.

(** The dictionary has no [key], or a string under it. *)
Definition str_or_absent (d : gmap string PyVal) (key : string) : Prop :=
  match d !! key with
  | Some (VStr _) | None => True
  | Some _ => False
  end.

(** Storage holds no event, or the most recent one is Stopped. *)
Definition no_running_event_in (conn : Db.Conn) : Prop :=
  Db.events conn = [] \/
  exists e, Db.get_last_event conn = Ok e /\ status e = Stopped.

(** Every stored event but the most recent one is Stopped. *)
Definition only_last_may_run (evs : list Event) : Prop :=
  forall pre e, evs = (pre ++ [e])%list -> Forall (fun x => status x = Stopped) pre.

(** The stored events that are not Stopped. *)
Definition non_stopped (evs : list Event) : list Event :=
  List.filter (fun x => match status x with Stopped => false | _ => true end) evs.

(** The ledger of a Running event between two [split()] calls: closed laps,
    the Split ones at least [split_min] minutes long, then one open Split
    lap. *)
Definition ledger_ok (cfg : Config) (l : list Lap) : Prop :=
  exists pre s,
    l = (pre ++ [(LapName_name Split, s, 0, 0)])%list /\
    Forall (fun lap => lap_end lap <> 0) pre /\
    Forall (fun lap => lap_name lap = LapName_name Split ->
                       split_min cfg * 60 <= lap_length lap) pre.

(** The number of open laps (end = 0) of a ledger. *)
Definition open_laps (l : list Lap) : nat :=
  length (List.filter (fun lap => lap_end lap =? 0) l).

(** ** Further definitions for the statements below *)

(** The digits that the loop of [base_repr] appends for [num], least
    significant first. *)
Definition loop_digits (base num : Z) : list string :=
  match Ident.base_repr_loop base num [] with
  | Ret ds => ds
  | Raise _ => []
  end.

(** A one-character string whose character is a digit of value below
    [base]. *)
Definition digit_below (base : Z) (d : string) : Prop :=
  exists c v, d = String c EmptyString /\ Ident.digit_value c = Some v /\
              0 <= v < base /\ Ident.is_base36_char c = true.

(** ** model.py and main.py: tasks on the command line *)

(** [Task.__str__] *)
Definition Task_str (t : Task) : string :=
  if negb (String.eqb (Task_alias t) "")
  then (Task_name t ++ " (" ++ Task_alias t ++ ")")%string
  else Task_name t.

(** The command [add] of main.py. [db.insert_task] is not among the
    sources: it is the parameter [insert_task], which gives the storage it
    leaves and its result. *)
Definition add (insert_task : Db.Conn -> Task -> Db.Conn * Result unit MultiText)
  (conn : Db.Conn) (lang : Lang) (randrange : Z -> Z -> Z)
  (name alias : string) : Py (Db.Conn * list Printed) :=
  r ← new_task (<["name" := VStr name]> {[ "alias" := VStr alias ]}) randrange;
  match r with
  | Err e => Ret (conn, [PText (text lang e)])
  | Ok task =>
      let '(conn, r) := insert_task conn task in
      match r with
      | Err e => Ret (conn, [PText (text lang e)])
      | Ok _ => Ret (conn, [PText ("Task added: " ++ Task_str task)%string])
      end
  end.
(** * Properties *)

(** ** The [Py] monad *)

(** A successful [Py] computation names its result. *)
Ltac ret_inv :=
  repeat match goal with
         | H : Raise _ = Ret _ |- _ => discriminate H
         | H : Ret _ = Raise _ |- _ => discriminate H
         | H : Ret ?x = Ret ?y |- _ =>
             let E := fresh "E" in
             assert (E : x = y) by congruence; clear H; try subst
         end.

Lemma bind_Ret_inv {A B} (m : Py A) (k : A -> Py B) (r : B) :
  m ≫= k = Ret r -> exists a, m = Ret a /\ k a = Ret r.
Proof. destruct m as [a|e]; cbn; [eauto | discriminate]. Qed.

(** ** Identifiers *)

Section IdentProofs.
Import Ident.

Lemma digit_at_ok (i : Z) :
  0 <= i < 36 ->
  exists c, digit_at i = Ret (String c EmptyString) /\ is_base36_char c = true.
Proof.
  intros Hi. unfold digit_at.
  destruct (Z.ltb_spec i 0) as [?|_]; [lia|].
  assert (Hn : (Z.to_nat i < 36)%nat) by lia.
  destruct (Z.to_nat i) as [|n] eqn:E; [eexists; split; reflexivity|].
  clear E.
  do 35 (destruct n as [|n]; [eexists; split; reflexivity|]).
  lia.
Qed.

Lemma base_repr_loop_unfold base num res :
  base_repr_loop base num res =
  if Z.eq_dec num 0 then Ret res
  else if Z_lt_dec 0 num then
    if Z_le_dec 2 base then
      match digit_at (num mod base) with
      | Ret d => base_repr_loop base (num / base) (res ++ [d])
      | Raise e => Raise e
      end
    else Raise NonTermination
  else Raise NonTermination.
Proof.
  rewrite base_repr_loop_equation_1.
  unfold base_repr_loop_unfold_clause_1, base_repr_loop_unfold_clause_1_clause_2,
    base_repr_loop_unfold_clause_1_clause_2_clause_1.
  destruct (Z.eq_dec num 0); [reflexivity|].
  destruct (Z_lt_dec 0 num), (Z_le_dec 2 base); reflexivity.
Qed.

Lemma base_repr_loop_zero base res : base_repr_loop base 0 res = Ret res.
Proof. rewrite base_repr_loop_unfold. reflexivity. Qed.

Lemma base_repr_loop_step base num res :
  0 < num -> 2 <= base <= 36 ->
  exists c, is_base36_char c = true /\
    base_repr_loop base num res =
    base_repr_loop base (num / base) (res ++ [String c EmptyString]).
Proof.
  intros Hn Hb.
  destruct (digit_at_ok (num mod base)) as (c & Hc & Hok).
  { pose proof (Z.mod_pos_bound num base ltac:(lia)). lia. }
  exists c. split; [exact Hok|].
  rewrite base_repr_loop_unfold.
  destruct (Z.eq_dec num 0); [lia|].
  destruct (Z_lt_dec 0 num); [|lia].
  destruct (Z_le_dec 2 base); [|lia].
  rewrite Hc. reflexivity.
Qed.

Lemma base_repr_loop_total base :
  2 <= base <= 36 ->
  forall num, 0 <= num -> forall res, exists res', base_repr_loop base num res = Ret res'.
Proof.
  intros Hb num Hnum.
  refine (Z_lt_induction
            (fun n => 0 <= n -> forall res, exists res', base_repr_loop base n res = Ret res')
            _ num Hnum Hnum).
  clear num Hnum. intros num IH Hnum res.
  destruct (Z.eq_dec num 0) as [->|Hne].
  - exists res. apply base_repr_loop_zero.
  - destruct (base_repr_loop_step base num res ltac:(lia) Hb) as (c & _ & ->).
    assert (0 <= num / base < num)
      by (split; [apply Z.div_pos; lia | apply Z.div_lt; lia]).
    apply IH; lia.
Qed.

Lemma base_repr_total number base padding :
  2 <= base <= 36 -> exists s, base_repr number base padding = Ret s.
Proof.
  intros Hb. unfold base_repr.
  change (Z.of_nat (String.length digits)) with 36.
  destruct (Z.ltb_spec 36 base); [lia|].
  destruct (Z.ltb_spec base 2); [lia|].
  destruct (base_repr_loop_total base Hb (Z.abs number) (Z.abs_nonneg _) []) as [res ->].
  cbn. eexists. reflexivity.
Qed.

Lemma base_repr_four_digits n :
  36 ^ 3 <= n < 36 ^ 4 -> four_base36 (base_repr n 36 0).
Proof.
  intros Hn. unfold base_repr.
  change (Z.of_nat (String.length digits)) with 36.
  change (36 <? 36) with false. change (36 <? 2) with false. cbv iota.
  rewrite Z.abs_eq by lia.
  assert (Hdiv : forall x, 0 <= x -> 36 * (x / 36) <= x < 36 * (x / 36) + 36).
  { intros x Hx. pose proof (Z.div_mod x 36 ltac:(lia)).
    pose proof (Z.mod_pos_bound x 36 ltac:(lia)). lia. }
  pose proof (Hdiv n ltac:(lia)) as H1.
  pose proof (Hdiv (n / 36) ltac:(lia)) as H2.
  pose proof (Hdiv (n / 36 / 36) ltac:(lia)) as H3.
  pose proof (Hdiv (n / 36 / 36 / 36) ltac:(lia)) as H4.
  destruct (base_repr_loop_step 36 n [] ltac:(lia) ltac:(lia)) as (c0 & Hc0 & ->).
  destruct (base_repr_loop_step 36 (n / 36) ([] ++ [String c0 ""]) ltac:(lia) ltac:(lia))
    as (c1 & Hc1 & ->).
  destruct (base_repr_loop_step 36 (n / 36 / 36) (([] ++ [String c0 ""]) ++ [String c1 ""])
              ltac:(lia) ltac:(lia)) as (c2 & Hc2 & ->).
  destruct (base_repr_loop_step 36 (n / 36 / 36 / 36)
              ((([] ++ [String c0 ""]) ++ [String c1 ""]) ++ [String c2 ""])
              ltac:(lia) ltac:(lia)) as (c3 & Hc3 & ->).
  replace (n / 36 / 36 / 36 / 36) with 0 by lia.
  rewrite base_repr_loop_zero.
  assert (Hneg : (n <? 0) = false) by (apply Z.ltb_ge; lia).
  cbn. rewrite Hneg. cbn.
  exists (String c3 (String c2 (String c1 (String c0 "")))).
  split; [reflexivity|]. split; [reflexivity|].
  cbn. repeat constructor; assumption.
Qed.

(** C9. [rand_id()] returns exactly four characters of [0-9a-z]: for every
    [n] from [int("1000", 36)] to [int("zzzz", 36)], [base_repr(n, 36)] has
    length 4 and only base-36 digits, and so has [rand_id()] for every
    generator that draws from the range it is given. *)
Theorem rand_id_four_base36_chars (n_min n_max : Z) :
  py_int "1000" 36 = Ret n_min ->
  py_int "zzzz" 36 = Ret n_max ->
  (forall n, n_min <= n <= n_max -> four_base36 (base_repr n 36 0)) /\
  (forall randrange : Z -> Z -> Z,
      (forall lo hi, lo < hi -> lo <= randrange lo hi < hi) ->
      four_base36 (rand_id randrange)).
Proof.
  intros Hmin Hmax.
  assert (n_min = 46656) as -> by (vm_compute in Hmin; congruence).
  assert (n_max = 1679615) as -> by (vm_compute in Hmax; congruence).
  split.
  - intros n Hn. apply base_repr_four_digits. lia.
  - intros randrange Hrange. unfold rand_id.
    change (py_int "1000" 36) with (Ret (A:=Z) 46656).
    change (py_int "zzzz" 36) with (Ret (A:=Z) 1679615).
    cbn [mbind Py_bind].
    apply base_repr_four_digits.
    specialize (Hrange 46656 (1679615 + 1) ltac:(lia)). lia.
Qed.

Lemma rand_id_four_base36_chars_witness :
  four_base36 (base_repr 46656 36 0) /\ four_base36 (rand_id (fun lo _ => lo)).
Proof.
  destruct (rand_id_four_base36_chars 46656 1679615 eq_refl eq_refl) as [Hn Hr].
  split.
  - apply Hn. lia.
  - apply Hr. intros lo hi Hlt. lia.
Defined.

End IdentProofs.
(** ** msgpack: what [unpackb] reads back *)

Section MsgpackProofs.
Import Msgpack.

Lemma Z_of_byte_of_Z z : Z_of_byte (byte_of_Z z) = z mod 256.
Proof.
  unfold byte_of_Z, Z_of_byte.
  pose proof (Z.mod_pos_bound z 256 ltac:(lia)) as Hm.
  destruct (Byte.of_N (Z.to_N (z mod 256))) as [b|] eqn:E.
  - apply Byte.to_of_N in E. rewrite E. lia.
  - apply Byte.of_N_None_iff in E. lia.
Qed.

Lemma length_be_bytes n z : length (be_bytes n z) = n.
Proof. induction n as [|n IH]; simpl; [reflexivity | now rewrite IH]. Qed.

Lemma fold_be_bytes n z acc :
  fold_left (fun acc b => acc * 256 + Z_of_byte b) (be_bytes n z) acc
  = acc * 256 ^ Z.of_nat n + z mod 256 ^ Z.of_nat n.
Proof.
  revert acc. induction n as [|n IH]; intros acc.
  - cbn [be_bytes fold_left]. change (256 ^ Z.of_nat 0) with 1.
    rewrite Z.mod_1_r. lia.
  - cbn [be_bytes fold_left]. rewrite IH, Z_of_byte_of_Z.
    rewrite Nat2Z.inj_succ, Z.pow_succ_r by lia.
    assert (256 ^ Z.of_nat n <> 0) by (apply Z.pow_nonzero; lia).
    rewrite (Z.mul_comm 256 (256 ^ Z.of_nat n)).
    rewrite (Z.rem_mul_r z (256 ^ Z.of_nat n) 256) by lia.
    ring.
Qed.

Lemma be_value_be_bytes n z : be_value (be_bytes n z) = z mod 256 ^ Z.of_nat n.
Proof. unfold be_value. rewrite fold_be_bytes. lia. Qed.

Lemma read_bytes_app h r n :
  length h = n -> read_bytes (Z.of_nat n) (h ++ r) = Ret (h, r).
Proof.
  intros <-. unfold read_bytes.
  rewrite bool_decide_eq_false_2 by (rewrite length_app; lia).
  rewrite Nat2Z.id, take_app_length, drop_app_length. reflexivity.
Qed.

Lemma read_uint_be n z r :
  0 <= z < 256 ^ Z.of_nat n -> read_uint n (be_bytes n z ++ r) = Ret (z, r).
Proof.
  intros Hz. unfold read_uint.
  rewrite read_bytes_app by apply length_be_bytes.
  cbn. rewrite be_value_be_bytes, Z.mod_small by lia. reflexivity.
Qed.

Lemma read_int_be n z r :
  - 2 ^ (8 * Z.of_nat n - 1) <= z < 2 ^ (8 * Z.of_nat n - 1) ->
  (0 < n)%nat ->
  read_int n (be_bytes n z ++ r) = Ret (z, r).
Proof.
  intros Hz Hn. unfold read_int, read_uint.
  rewrite read_bytes_app by apply length_be_bytes.
  cbn [mbind Py_bind]. rewrite be_value_be_bytes.
  assert (Hp : 256 ^ Z.of_nat n = 2 * 2 ^ (8 * Z.of_nat n - 1)).
  { change 256 with (2 ^ 8). rewrite <- Z.pow_mul_r by lia.
    rewrite <- Z.pow_succ_r by lia. f_equal. lia. }
  assert (Hq : 2 ^ (8 * Z.of_nat n) = 2 * 2 ^ (8 * Z.of_nat n - 1)).
  { rewrite <- Z.pow_succ_r by lia. f_equal. lia. }
  rewrite Hp, Hq.
  set (h := 2 ^ (8 * Z.of_nat n - 1)) in *.
  assert (0 < h) by (apply Z.pow_pos_nonneg; lia).
  destruct (Z_lt_dec z 0) as [Hneg|Hpos].
  - assert (z mod (2 * h) = z + 2 * h) as ->.
    { symmetry. apply (Z.mod_unique_pos z (2 * h) (-1)); lia. }
    rewrite bool_decide_eq_false_2 by lia.
    replace (z + 2 * h - 2 * h) with z by lia. reflexivity.
  - rewrite Z.mod_small by lia.
    rewrite bool_decide_eq_true_2 by lia. reflexivity.
Qed.

Lemma unpack_obj_cons f b rest :
  unpack_obj (S f) (b :: rest) =
  let t := Z_of_byte b in
  if bool_decide (t < 0x80) then Ret (OInt t, rest)
  else if bool_decide (0xe0 <= t) then Ret (OInt (t - 256), rest)
  else if bool_decide (0xa0 <= t <= 0xbf) then read_str (t - 0xa0) rest
  else if bool_decide (0x90 <= t <= 0x9f) then
    read_array (unpack_obj f) (t - 0x90) rest
  else if bool_decide (t = 0xcc) then
    '(v, r) ← read_uint 1 rest; Ret (OInt v, r)
  else if bool_decide (t = 0xcd) then
    '(v, r) ← read_uint 2 rest; Ret (OInt v, r)
  else if bool_decide (t = 0xce) then
    '(v, r) ← read_uint 4 rest; Ret (OInt v, r)
  else if bool_decide (t = 0xcf) then
    '(v, r) ← read_uint 8 rest; Ret (OInt v, r)
  else if bool_decide (t = 0xd0) then
    '(v, r) ← read_int 1 rest; Ret (OInt v, r)
  else if bool_decide (t = 0xd1) then
    '(v, r) ← read_int 2 rest; Ret (OInt v, r)
  else if bool_decide (t = 0xd2) then
    '(v, r) ← read_int 4 rest; Ret (OInt v, r)
  else if bool_decide (t = 0xd3) then
    '(v, r) ← read_int 8 rest; Ret (OInt v, r)
  else if bool_decide (t = 0xd9) then
    '(n, r) ← read_uint 1 rest; read_str n r
  else if bool_decide (t = 0xda) then
    '(n, r) ← read_uint 2 rest; read_str n r
  else if bool_decide (t = 0xdb) then
    '(n, r) ← read_uint 4 rest; read_str n r
  else if bool_decide (t = 0xdc) then
    '(n, r) ← read_uint 2 rest; read_array (unpack_obj f) n r
  else if bool_decide (t = 0xdd) then
    '(n, r) ← read_uint 4 rest; read_array (unpack_obj f) n r
  else Raise NotModelled.
Proof. reflexivity. Qed.

(** Reading the header byte [b] of known value [v]: the tests of
    [unpack_obj] on it are decided by [lia]. *)
Ltac header b v :=
  rewrite unpack_obj_cons;
  replace (Z_of_byte b) with v by (try reflexivity; rewrite Z_of_byte_of_Z; Z.div_mod_to_equations; lia);
  cbv zeta;
  repeat (first [ rewrite bool_decide_eq_false_2 by lia
                | rewrite bool_decide_eq_true_2 by lia ]).

Lemma unpack_pack_int z data f rest :
  pack_int z = Ret data ->
  unpack_obj (S f) (data ++ rest) = Ret (OInt z, rest).
Proof.
  unfold pack_int. intros H.
  repeat case_bool_decide; ret_inv; rewrite <- app_comm_cons, ?app_nil_l.
  - header (byte_of_Z z) z. reflexivity.
  - header (byte_of_Z z) (z + 256). replace (z + 256 - 256) with z by lia. reflexivity.
  - header xcc 204. rewrite read_uint_be by (cbn; lia). reflexivity.
  - header xd0 208. rewrite read_int_be by (cbn; lia). reflexivity.
  - header xcd 205. rewrite read_uint_be by (cbn; lia). reflexivity.
  - header xd1 209. rewrite read_int_be by (cbn; lia). reflexivity.
  - header xce 206. rewrite read_uint_be by (cbn; lia). reflexivity.
  - header xd2 210. rewrite read_int_be by (cbn; lia). reflexivity.
  - header xcf 207. rewrite read_uint_be by (cbn; lia). reflexivity.
  - header xd3 211. rewrite read_int_be by (cbn; lia). reflexivity.
Qed.

Lemma length_list_byte_of_string s :
  length (list_byte_of_string s) = String.length s.
Proof.
  unfold list_byte_of_string. rewrite length_map.
  induction s as [|c s IH]; cbn; [reflexivity | now rewrite IH].
Qed.

Lemma read_str_app raw rest :
  read_str (Z.of_nat (length raw)) (raw ++ rest)
  = Ret (OStr (string_of_list_byte raw), rest).
Proof. unfold read_str. rewrite read_bytes_app by reflexivity. reflexivity. Qed.

Lemma unpack_raw_header n hdr f bs :
  0 <= n ->
  pack_raw_header n = Ret hdr ->
  unpack_obj (S f) (hdr ++ bs) = read_str n bs.
Proof.
  unfold pack_raw_header. intros Hn H.
  repeat case_bool_decide; ret_inv; rewrite <- app_comm_cons, ?app_nil_l.
  - header (byte_of_Z (160 + n)) (160 + n).
    replace (160 + n - 160) with n by lia. reflexivity.
  - header xd9 217. rewrite read_uint_be by (cbn; lia). reflexivity.
  - header xda 218. rewrite read_uint_be by (cbn; lia). reflexivity.
  - header xdb 219. rewrite read_uint_be by (cbn; lia). reflexivity.
Qed.

Lemma unpack_pack_str s data f rest :
  pack_str s = Ret data ->
  unpack_obj (S f) (data ++ rest) = Ret (OStr s, rest).
Proof.
  unfold pack_str. intros H. case_bool_decide; [discriminate|].
  apply bind_Ret_inv in H as (hdr & Hhdr & H). ret_inv.
  rewrite <- app_assoc.
  rewrite (unpack_raw_header _ _ f _ (Nat2Z.is_nonneg _) Hhdr).
  rewrite read_str_app, string_of_list_byte_of_string. reflexivity.
Qed.

Lemma unpack_array_header n hdr f bs :
  0 <= n ->
  pack_array_header n = Ret hdr ->
  unpack_obj (S f) (hdr ++ bs) = read_array (unpack_obj f) n bs.
Proof.
  unfold pack_array_header. intros Hn H.
  repeat case_bool_decide; ret_inv; rewrite <- app_comm_cons, ?app_nil_l.
  - header (byte_of_Z (144 + n)) (144 + n).
    replace (144 + n - 144) with n by lia. reflexivity.
  - header xdc 220. rewrite read_uint_be by (cbn; lia). reflexivity.
  - header xdd 221. rewrite read_uint_be by (cbn; lia). reflexivity.
Qed.

Lemma pack_array_header_nonempty n hdr :
  pack_array_header n = Ret hdr -> (1 <= length hdr)%nat.
Proof.
  unfold pack_array_header. intros H.
  repeat case_bool_decide; ret_inv; cbn; lia.
Qed.

Lemma pack_obj_unfold o nl :
  pack_obj o nl =
  if bool_decide (nl < 0) then Raise ValueError
  else
    match o with
    | OInt z => pack_int z
    | OStr s => pack_str s
    | OArr l =>
        hdr ← pack_array_header (Z.of_nat (length l));
        body ← pack_items (fun x => pack_obj x (nl - 1)) l;
        Ret (hdr ++ body)%list
    end.
Proof. destruct o; reflexivity. Qed.

Lemma pack_obj_nonempty o nl data :
  pack_obj o nl = Ret data -> (1 <= length data)%nat.
Proof.
  rewrite pack_obj_unfold. intros Hp.
  case_bool_decide; [discriminate|].
  destruct o as [z|s|l].
  - unfold pack_int in Hp. repeat case_bool_decide; ret_inv; cbn; lia.
  - unfold pack_str in Hp. case_bool_decide; [discriminate|].
    apply bind_Ret_inv in Hp as (hdr & Hhdr & Hp). ret_inv.
    rewrite length_app.
    unfold pack_raw_header in Hhdr.
    repeat case_bool_decide; ret_inv; cbn; lia.
  - apply bind_Ret_inv in Hp as (hdr & Hhdr & Hp).
    apply bind_Ret_inv in Hp as (body & _ & Hp). ret_inv.
    apply pack_array_header_nonempty in Hhdr. rewrite length_app. lia.
Qed.

Lemma read_items_pack_items (read : list byte -> Py (obj * list byte))
  (pack_item : obj -> Py (list byte)) (bound : nat) :
  (forall x a rest, pack_item x = Ret a -> (length a <= bound)%nat ->
                    read (a ++ rest)%list = Ret (x, rest)) ->
  forall l body rest,
    pack_items pack_item l = Ret body -> (length body <= bound)%nat ->
    read_items read (length l) (body ++ rest) = Ret (l, rest).
Proof.
  intros Hread. induction l as [|x l IH]; intros body rest H Hlen.
  - cbn in H. ret_inv. reflexivity.
  - cbn [pack_items] in H.
    apply bind_Ret_inv in H as (a & Ha & H).
    apply bind_Ret_inv in H as (b & Hb & H). ret_inv.
    rewrite length_app in Hlen.
    cbn [length read_items]. rewrite <- app_assoc.
    rewrite (Hread _ _ _ Ha) by lia. cbn [mbind Py_bind].
    rewrite (IH _ _ Hb) by lia. reflexivity.
Qed.

(** What [pack_obj] writes, [unpack_obj] reads back, whatever follows. *)
Lemma unpack_pack_obj fuel :
  forall o nl data rest,
    pack_obj o nl = Ret data -> (length data <= fuel)%nat ->
    unpack_obj fuel (data ++ rest) = Ret (o, rest).
Proof.
  induction fuel as [|f IH]; intros o nl data rest Hp Hlen.
  - apply pack_obj_nonempty in Hp. lia.
  - rewrite pack_obj_unfold in Hp. case_bool_decide; [discriminate|].
    destruct o as [z|s|l].
    + now apply unpack_pack_int.
    + now apply unpack_pack_str.
    + apply bind_Ret_inv in Hp as (hdr & Hhdr & Hp).
      apply bind_Ret_inv in Hp as (body & Hbody & Hp). ret_inv.
      pose proof (pack_array_header_nonempty _ _ Hhdr) as Hh.
      rewrite length_app in Hlen.
      rewrite <- app_assoc, (unpack_array_header _ _ f _ (Nat2Z.is_nonneg _) Hhdr).
      unfold read_array. rewrite Nat2Z.id.
      rewrite (read_items_pack_items _ _ f (fun x a r => IH x (nl - 1) a r) _ _ _ Hbody)
        by lia.
      reflexivity.
Qed.

Lemma unpackb_packb o data :
  packb o = Ret data -> unpackb data = Ret o.
Proof.
  intros H. unfold unpackb.
  rewrite <- (app_nil_r data) at 2.
  rewrite (unpack_pack_obj _ _ _ _ _ H) by lia. reflexivity.
Qed.

End MsgpackProofs.

(** ** The lap blob *)

Section LapBlob.
Import Msgpack.

Lemma pack_int_ok z : msgpack_int z -> exists data, pack_int z = Ret data.
Proof.
  unfold msgpack_int, pack_int. intros Hz.
  repeat (case_bool_decide; [eexists; reflexivity|]). lia.
Qed.

Lemma pack_str_ok s :
  Z.of_nat (String.length s) < 2 ^ 32 -> exists data, pack_str s = Ret data.
Proof.
  intros Hs. unfold pack_str. rewrite length_list_byte_of_string.
  rewrite bool_decide_eq_false_2 by lia.
  unfold pack_raw_header.
  repeat (case_bool_decide; [eexists; reflexivity|]). lia.
Qed.

Lemma pack_array_header_ok n :
  n < 2 ^ 32 -> exists hdr, pack_array_header n = Ret hdr.
Proof.
  intros Hn. unfold pack_array_header.
  repeat (case_bool_decide; [eexists; reflexivity|]). lia.
Qed.

Lemma pack_lap_ok l nl :
  1 <= nl -> lap_packable l -> exists data, pack_obj (obj_of_lap l) nl = Ret data.
Proof.
  intros Hnl. destruct l as [[[n s] e] len]. intros (Hn & Hs & He & Hlen).
  cbn [lap_name lap_start lap_end lap_length] in *.
  destruct (pack_str_ok n Hn) as [dn En].
  destruct (pack_int_ok s Hs) as [ds Es].
  destruct (pack_int_ok e He) as [de Ee].
  destruct (pack_int_ok len Hlen) as [dl El].
  unfold obj_of_lap. rewrite pack_obj_unfold.
  rewrite bool_decide_eq_false_2 by lia.
  cbn [length pack_items]. rewrite !pack_obj_unfold.
  rewrite bool_decide_eq_false_2 by lia.
  rewrite En, Es, Ee, El. cbn. eexists. reflexivity.
Qed.

Lemma pack_laps_items_ok ls nl :
  1 <= nl -> Forall lap_packable ls ->
  exists body, pack_items (fun x => pack_obj x nl) (map obj_of_lap ls) = Ret body.
Proof.
  intros Hnl. induction 1 as [|l ls Hl _ [body IH]].
  - eexists. reflexivity.
  - destruct (pack_lap_ok l nl Hnl Hl) as [a Ha].
    cbn [map pack_items]. rewrite Ha, IH. cbn. eexists. reflexivity.
Qed.

Lemma pack_laps_ok ls :
  laps_packable ls -> exists data, pack (obj_of_laps ls) = Ret data.
Proof.
  intros [Hlen Hall]. unfold pack, packb, obj_of_laps, DEFAULT_RECURSE_LIMIT.
  rewrite pack_obj_unfold. rewrite bool_decide_eq_false_2 by lia.
  rewrite length_map.
  destruct (pack_array_header_ok _ Hlen) as [hdr ->].
  destruct (pack_laps_items_ok ls (511 - 1) ltac:(lia) Hall) as [body ->].
  cbn. eexists. reflexivity.
Qed.

Lemma laps_of_objs_map ls : laps_of_objs (map obj_of_lap ls) = Some ls.
Proof.
  induction ls as [|[[[n s] e] len] ls IH]; [reflexivity|].
  cbn [map laps_of_objs]. rewrite IH. reflexivity.
Qed.

Lemma laps_of_obj_of_laps ls : laps_of_obj (obj_of_laps ls) = Some ls.
Proof. apply laps_of_objs_map. Qed.

(** C8, within the range of msgpack. For every lap sequence whose
    integers msgpack has a format for (from -2^63 to 2^64-1), with names
    and a number of laps below 2^32, unpacking the packed blob gives the
    sequence back unchanged: pack succeeds, [unpack(pack(laps)) = laps],
    and the tuple read back is the same sequence of laps. *)
Theorem unpack_pack_laps (ls : list Lap) :
  laps_packable ls ->
  unpack_pack (obj_of_laps ls) = Ret (obj_of_laps ls) /\
  (exists data, pack (obj_of_laps ls) = Ret data /\
                (o ← unpack data; Ret (laps_of_obj o)) = Ret (Some ls)).
Proof.
  intros Hls. destruct (pack_laps_ok ls Hls) as [data Hdata].
  pose proof (unpackb_packb _ _ Hdata) as Hback.
  split.
  - unfold unpack_pack. rewrite Hdata. exact Hback.
  - exists data. split; [exact Hdata|].
    unfold unpack. rewrite Hback. cbn [mbind Py_bind].
    rewrite laps_of_obj_of_laps. reflexivity.
Qed.

Lemma unpack_pack_laps_witness :
  laps_packable [("Split", 1667500000, 1667500400, 400); ("Pause", 1667500400, 0, 0)] /\
  unpack_pack (obj_of_laps [("Split", 1667500000, 1667500400, 400); ("Pause", 1667500400, 0, 0)])
  = Ret (obj_of_laps [("Split", 1667500000, 1667500400, 400); ("Pause", 1667500400, 0, 0)]).
Proof.
  assert (H : laps_packable
                [("Split", 1667500000, 1667500400, 400); ("Pause", 1667500400, 0, 0)]).
  { split; [cbn; lia|]. repeat constructor; cbn; lia. }
  split; [exact H|].
  apply (unpack_pack_laps _ H).
Defined.

(** C8 as stated fails: a lap whose start is 2^64 is a tuple of
    [(str, int, int, int)], and [pack] raises [OverflowError] on it. *)
Lemma unpack_pack_laps_overflow :
  unpack_pack (obj_of_laps [("Split", 2 ^ 64, 0, 0)]) = Raise OverflowError /\
  unpack_pack (obj_of_laps [("Split", 2 ^ 64, 0, 0)])
  <> Ret (obj_of_laps [("Split", 2 ^ 64, 0, 0)]).
Proof.
  assert (H : unpack_pack (obj_of_laps [("Split", 2 ^ 64, 0, 0)]) = Raise OverflowError)
    by (vm_compute; reflexivity).
  split; [exact H|]. rewrite H. discriminate.
Qed.

End LapBlob.

(** ** Task names *)

Section TaskNames.

Lemma forbidden_iff_not_allowed c :
  Re.class_matches NameForbidPattern c = negb (Re.class_matches SpecNameClass c).
Proof.
  unfold Re.class_matches, NameForbidPattern, SpecNameClass.
  cbn [Re.negated Re.items existsb].
  generalize (Re.item_matches c (Re.Chr "_")) (Re.item_matches c (Re.Chr "-"))
    (Re.item_matches c (Re.Range "0" "9")) (Re.item_matches c (Re.Range "a" "z"))
    (Re.item_matches c (Re.Range "A" "Z")).
  intros [] [] [] [] []; reflexivity.
Qed.

Lemma search_from_none name pos :
  Re.search_from NameForbidPattern name pos = None <->
  Re.all_match SpecNameClass name = true.
Proof.
  revert pos. induction name as [|c name IH]; intros pos; cbn [Re.search_from Re.all_match].
  - tauto.
  - rewrite forbidden_iff_not_allowed.
    destruct (Re.class_matches SpecNameClass c); cbn [negb andb].
    + apply IH.
    + split; discriminate.
Qed.

Lemma check_name_ok name :
  Re.fullmatch_star SpecNameClass name = true -> check_name name = OK.
Proof.
  intros H. unfold check_name, Re.search.
  apply (search_from_none name 0%nat) in H. rewrite H. reflexivity.
Qed.

Lemma check_name_err name :
  Re.fullmatch_star SpecNameClass name = false -> check_name name = Err name_error.
Proof.
  intros H. unfold check_name, Re.search.
  destruct (Re.search_from NameForbidPattern name 0) eqn:E; [reflexivity|].
  apply search_from_none in E. unfold Re.fullmatch_star in H. congruence.
Qed.

Lemma rand_id_total randrange : exists s, Ident.rand_id randrange = Ret s.
Proof.
  unfold Ident.rand_id.
  change (Ident.py_int "1000" 36) with (Ret (A:=Z) 46656).
  change (Ident.py_int "zzzz" 36) with (Ret (A:=Z) 1679615).
  cbn [mbind Py_bind]. apply base_repr_total. lia.
Qed.

Lemma get_str_typed (d : gmap string PyVal) key default :
  str_or_absent d key -> exists s, get_str d key default = Ret s.
Proof.
  unfold str_or_absent, get_str.
  destruct (d !! key) as [[s|b|z]|]; intros H; try contradiction; eexists; reflexivity.
Qed.

(** C4, for what [check_name] tests. [new_task] returns a success result exactly when the
    name contains only the characters -, _, 0-9, a-z, A-Z, that is, when
    it matches [[-_0-9a-zA-Z]*], and fails with the invalid-name error
    for every other name; for a non-empty name this is the pattern
    [[-_0-9a-zA-Z]+] of the specification, and the empty name is
    accepted. *)
Theorem new_task_ok_iff_allowed_chars (d : gmap string PyVal)
  (randrange : Z -> Z -> Z) (name : string) :
  d !! "name" = Some (VStr name) ->
  str_or_absent d "id" -> str_or_absent d "alias" ->
  ((exists task, new_task d randrange = Ret (Ok task) /\ Task_name task = name)
     <-> Re.fullmatch_star SpecNameClass name = true) /\
  (Re.fullmatch_star SpecNameClass name = false ->
     new_task d randrange = Ret (Err name_error)) /\
  (name <> "" ->
     Re.fullmatch_star SpecNameClass name = Re.fullmatch_plus SpecNameClass name) /\
  (name = "" -> exists task, new_task d randrange = Ret (Ok task)).
Proof.
  intros Hname Hid Halias.
  destruct (rand_id_total randrange) as [fresh Hfresh].
  destruct (get_str_typed d "id" fresh Hid) as [t_id Ht_id].
  destruct (get_str_typed d "alias" "" Halias) as [alias Ha].
  assert (Hrun : new_task d randrange =
                 match err (check_name name) with
                 | None => Ret (Ok {| Task_id := t_id; Task_name := name;
                                      Task_alias := alias |})
                 | Some e => Ret (Err e)
                 end).
  { unfold new_task. rewrite Hfresh. cbn [mbind Py_bind].
    rewrite Ht_id. cbn [mbind Py_bind].
    unfold item_str. rewrite Hname. cbn [as_str mbind Py_bind].
    rewrite Ha. reflexivity. }
  assert (Hok : Re.fullmatch_star SpecNameClass name = true ->
                exists task, new_task d randrange = Ret (Ok task) /\ Task_name task = name).
  { intros H. rewrite Hrun, (check_name_ok _ H). cbn. eexists. split; reflexivity. }
  assert (Herr : Re.fullmatch_star SpecNameClass name = false ->
                 new_task d randrange = Ret (Err name_error)).
  { intros H. rewrite Hrun, (check_name_err _ H). reflexivity. }
  repeat split.
  - intros (task & Htask & _).
    destruct (Re.fullmatch_star SpecNameClass name) eqn:E; [reflexivity|].
    rewrite (Herr eq_refl) in Htask. discriminate.
  - exact Hok.
  - exact Herr.
  - destruct name; [congruence | reflexivity].
  - intros ->. destruct (Hok eq_refl) as (task & Htask & _). eauto.
Qed.

Lemma new_task_ok_iff_allowed_chars_witness :
  (exists task, new_task (<["alias" := VStr "writing"]> {[ "name" := VStr "blog-2_A" ]})
                  (fun lo _ => lo) = Ret (Ok task) /\ Task_name task = "blog-2_A") /\
  new_task {[ "name" := VStr "a b" ]} (fun lo _ => lo) = Ret (Err name_error).
Proof.
  split.
  - apply (new_task_ok_iff_allowed_chars
             (<["alias" := VStr "writing"]> {[ "name" := VStr "blog-2_A" ]})
             (fun lo _ => lo) "blog-2_A"); reflexivity.
  - apply (new_task_ok_iff_allowed_chars {[ "name" := VStr "a b" ]}
             (fun lo _ => lo) "a b"); reflexivity.
Defined.

(** C4 as stated fails on the empty name: it does not match
    [[-_0-9a-zA-Z]+], and [new_task] returns a success result for it. *)
Lemma new_task_accepts_empty_name :
  Re.fullmatch_plus SpecNameClass "" = false /\
  new_task {[ "name" := VStr "" ]} (fun lo _ => lo)
  = Ret (Ok {| Task_id := "1000"; Task_name := ""; Task_alias := "" |}).
Proof. split; reflexivity. Qed.

End TaskNames.

(** ** Events: construction and [to_dict] *)

Section EventRecords.

Lemma date_id_total now : exists s, Ident.date_id now = Ret s.
Proof. apply base_repr_total. lia. Qed.

Lemma EventStatus_of_name_name st :
  EventStatus_of_name (EventStatus_name st) = Ret st.
Proof. destruct st; reflexivity. Qed.

Lemma Event_init_task_id_only tid now_id now_lap eid :
  Ident.date_id now_id = Ret eid ->
  Event_init {[ "task_id" := VStr tid ]} now_id now_lap
  = Ret {| id := eid; task_id := tid; status := Running;
           laps := [(LapName_name Split, now_lap, 0, 0)]; work := 0 |}.
Proof.
  intros Hid. unfold Event_init, get_str, item_str.
  rewrite Hid. cbn [mbind Py_bind].
  rewrite lookup_singleton_eq.
  rewrite !lookup_singleton_ne by discriminate.
  reflexivity.
Qed.

(** C6. An event constructed from a dictionary that holds only [task_id],
    as [event_start] does, is Running, has [work = 0], and its laps are
    exactly one open Split lap (end 0, length 0) that starts at the clock
    reading taken at creation; it is the event that [event_start] inserts
    when no event is running and the task exists. *)
Theorem started_event_is_running_with_one_open_split :
  (forall tid now_id now_lap,
      exists event,
        Event_init {[ "task_id" := VStr tid ]} now_id now_lap = Ret event /\
        status event = Running /\ work event = 0 /\ task_id event = tid /\
        laps event = [(LapName_name Split, now_lap, 0, 0)]) /\
  (forall conn name now_id now_lap task,
      no_running_event_in conn ->
      Db.get_task_by_name conn name = Ok task ->
      exists event,
        Event_init {[ "task_id" := VStr (Task_id task) ]} now_id now_lap = Ret event /\
        fst (event_start conn name now_id now_lap) = Db.insert_event conn event /\
        status event = Running /\ work event = 0 /\
        task_id event = Task_id task /\
        laps event = [(LapName_name Split, now_lap, 0, 0)]).
Proof.
  split.
  - intros tid now_id now_lap.
    destruct (date_id_total now_id) as [eid Heid].
    eexists. split; [apply (Event_init_task_id_only _ _ _ _ Heid)|].
    repeat split; reflexivity.
  - intros conn name now_id now_lap task Hn Htask.
    destruct (date_id_total now_id) as [eid Heid].
    pose proof (Event_init_task_id_only (Task_id task) _ now_lap _ Heid) as Hinit.
    eexists. split; [exact Hinit|].
    split; [|repeat split; reflexivity].
    unfold event_start.
    assert (Hchk : check_last_event_stopped conn = OK).
    { unfold check_last_event_stopped, Db.get_last_event.
      destruct Hn as [Hnil|(e & He & Hst)].
      - rewrite Hnil. reflexivity.
      - unfold Db.get_last_event in He. rewrite He, Hst. reflexivity. }
    rewrite Hchk. cbn [err OK]. rewrite Htask, Hinit. reflexivity.
Qed.

Lemma started_event_is_running_with_one_open_split_witness :
  let conn := {| Db.tasks := [{| Task_id := "1000"; Task_name := "code";
                                 Task_alias := "" |}];
                 Db.events := [] |} in
  exists event,
    Event_init {[ "task_id" := VStr "1000" ]} 1667500000 1667500000 = Ret event /\
    fst (event_start conn "code" 1667500000 1667500000) = Db.insert_event conn event /\
    status event = Running /\ work event = 0 /\
    laps event = [(LapName_name Split, 1667500000, 0, 0)].
Proof.
  cbv zeta.
  destruct (proj2 started_event_is_running_with_one_open_split
              {| Db.tasks := [{| Task_id := "1000"; Task_name := "code";
                                 Task_alias := "" |}];
                 Db.events := [] |} "code" 1667500000 1667500000
              {| Task_id := "1000"; Task_name := "code"; Task_alias := "" |})
    as (event & Hinit & Hfst & Hs & Hw & _ & Hl).
  - left. reflexivity.
  - reflexivity.
  - exists event. repeat split; assumption.
Defined.

Lemma lookup_to_dict (e : Event) (packed : list byte) :
  let d : gmap string PyVal :=
    <["id" := VStr (id e)]>
      (<["task_id" := VStr (task_id e)]>
         (<["status" := VStr (EventStatus_name (status e))]>
            (<["laps" := VBytes packed]> (<["work" := VInt 0]> ∅)))) in
  d !! "id" = Some (VStr (id e)) /\
  d !! "task_id" = Some (VStr (task_id e)) /\
  d !! "status" = Some (VStr (EventStatus_name (status e))) /\
  d !! "laps" = Some (VBytes packed) /\
  d !! "work" = Some (VInt 0).
Proof.
  cbv zeta.
  repeat split;
    repeat (first [ rewrite lookup_insert_eq; reflexivity
                  | rewrite lookup_insert_ne by discriminate ]).
Qed.

(** C10. [e.to_dict()] maps "work" to 0 whatever [e.work] is, while id,
    task_id, the status name and the packed laps are those of [e]; so an
    event constructed from that dictionary is [e] with [work = 0]: a
    nonzero [work] does not survive the round trip. *)
Theorem to_dict_drops_work (e : Event) (d : gmap string PyVal) :
  to_dict e = Ret d ->
  d !! "work" = Some (VInt 0) /\
  d !! "id" = Some (VStr (id e)) /\
  d !! "task_id" = Some (VStr (task_id e)) /\
  d !! "status" = Some (VStr (EventStatus_name (status e))) /\
  (exists packed, pack (obj_of_laps (laps e)) = Ret packed /\
                  d !! "laps" = Some (VBytes packed)) /\
  (forall now_id now_lap,
      Event_init d now_id now_lap
      = Ret {| id := id e; task_id := task_id e; status := status e;
               laps := laps e; work := 0 |}).
Proof.
  unfold to_dict. intros H.
  apply bind_Ret_inv in H as (packed & Hpacked & H). ret_inv.
  destruct (lookup_to_dict e packed) as (Hid & Htid & Hst & Hlaps & Hwork).
  cbv zeta in *.
  repeat split; try assumption.
  - exists packed. split; assumption.
  - intros now_id now_lap.
    destruct (date_id_total now_id) as [fresh Hfresh].
    unfold Event_init, get_str, item_str.
    rewrite Hfresh, Hid, Htid, Hst, Hlaps, Hwork.
    cbn [mbind Py_bind as_str as_int].
    rewrite EventStatus_of_name_name. cbn [mbind Py_bind].
    assert (Htruthy : truthy (VBytes packed) = true).
    { pose proof (pack_obj_nonempty _ _ _ Hpacked).
      destruct packed; [cbn in *; lia | reflexivity]. }
    rewrite Htruthy.
    unfold unpack. rewrite (unpackb_packb _ _ Hpacked). cbn [mbind Py_bind].
    rewrite laps_of_obj_of_laps. reflexivity.
Qed.

Lemma to_dict_drops_work_witness :
  exists d,
    to_dict {| id := "rksb8g"; task_id := "1000"; status := Stopped;
               laps := [("Split", 1667500000, 1667500400, 400)]; work := 400 |}
    = Ret d /\
    d !! "work" = Some (VInt 0) /\
    Event_init d 1667600000 1667600000
    = Ret {| id := "rksb8g"; task_id := "1000"; status := Stopped;
             laps := [("Split", 1667500000, 1667500400, 400)]; work := 0 |}.
Proof.
  eexists.
  assert (H : to_dict {| id := "rksb8g"; task_id := "1000"; status := Stopped;
                         laps := [("Split", 1667500000, 1667500400, 400)];
                         work := 400 |} = Ret _) by reflexivity.
  split; [exact H|].
  destruct (to_dict_drops_work _ _ H) as (Hw & _ & _ & _ & _ & Hback).
  split; [exact Hw | exact (Hback 1667600000 1667600000)].
Defined.

End EventRecords.

(** ** The event commands of util.py *)

Section Commands.

Lemma last_event_cases conn :
  (Db.events conn = [] /\ Db.get_last_event conn = Err Db.not_found) \/
  (exists pre e, Db.events conn = pre ++ [e] /\ Db.get_last_event conn = Ok e).
Proof.
  unfold Db.get_last_event.
  destruct (Db.events conn) as [|x l] using rev_ind.
  - left. split; reflexivity.
  - right. exists l, x. rewrite rev_unit. split; reflexivity.
Qed.

Lemma check_last_event_stopped_ok conn :
  check_last_event_stopped conn = OK <-> no_running_event_in conn.
Proof.
  unfold check_last_event_stopped, no_running_event_in.
  destruct (last_event_cases conn) as [[Hnil ->]|(pre & e & Hev & ->)].
  - split; [intros _; left; exact Hnil | reflexivity].
  - split.
    + intros H. right. exists e. split; [reflexivity|].
      destruct (status e); [discriminate | discriminate | reflexivity].
    + intros [Hnil|(e' & He' & Hst)].
      * rewrite Hnil in Hev. destruct pre; discriminate.
      * injection He' as <-. rewrite Hst. reflexivity.
Qed.

Lemma check_last_event_stopped_conflict conn e :
  Db.get_last_event conn = Ok e -> status e <> Stopped ->
  check_last_event_stopped conn = Err cannot_start.
Proof.
  intros He Hst. unfold check_last_event_stopped. rewrite He.
  destruct (status e); [reflexivity | reflexivity | contradiction].
Qed.

Lemma event_start_cases conn name now_id now_lap :
  (check_last_event_stopped conn = Err cannot_start /\
   event_start conn name now_id now_lap = (conn, Ret (ReplyText cannot_start))) \/
  (check_last_event_stopped conn = OK /\
   ((exists e, Db.get_task_by_name conn name = Err e /\
               event_start conn name now_id now_lap
               = (conn, Ret (ReplyText (task_not_found name)))) \/
    (exists task event,
        Db.get_task_by_name conn name = Ok task /\
        Event_init {[ "task_id" := VStr (Task_id task) ]} now_id now_lap = Ret event /\
        status event = Running /\
        event_start conn name now_id now_lap
        = (Db.insert_event conn event, Raise AttributeError)))).
Proof.
  unfold event_start.
  destruct (check_last_event_stopped conn) as [ok|m] eqn:Hchk.
  - right.
    assert (ok = "OK") as ->.
    { unfold check_last_event_stopped in Hchk.
      destruct (Db.get_last_event conn) as [e|]; [destruct (status e)|];
        unfold OK in Hchk; congruence. }
    split; [reflexivity|]. cbn [err].
    destruct (Db.get_task_by_name conn name) as [task|e].
    + right. destruct (date_id_total now_id) as [eid Heid].
      pose proof (Event_init_task_id_only (Task_id task) _ now_lap _ Heid) as Hinit.
      rewrite Hinit.
      eexists _, _. split; [reflexivity|]. split; [exact Hinit|].
      split; reflexivity.
    + left. exists e. split; reflexivity.
  - left.
    assert (m = cannot_start) as ->.
    { unfold check_last_event_stopped in Hchk.
      destruct (Db.get_last_event conn) as [e|]; [destruct (status e)|];
        unfold OK in Hchk; congruence. }
    split; reflexivity.
Qed.

Lemma only_last_may_run_snoc evs e :
  Forall (fun x => status x = Stopped) evs -> only_last_may_run (evs ++ [e]).
Proof.
  intros H pre e' Heq. apply app_inj_tail in Heq as [-> _]. exact H.
Qed.

Lemma non_stopped_at_most_one evs :
  only_last_may_run evs -> (length (non_stopped evs) <= 1)%nat.
Proof.
  destruct evs as [|e pre] using rev_ind; [cbn; lia|].
  intros H. specialize (H pre e eq_refl).
  unfold non_stopped. rewrite List.filter_app, length_app.
  assert (List.filter (fun x => match status x with Stopped => false | _ => true end) pre = []) as ->.
  { clear -H. induction H as [|x l Hx _ IH]; [reflexivity|].
    cbn. rewrite Hx. exact IH. }
  cbn. destruct (status e); cbn; lia.
Qed.

(** C5. [event_start] replies with the conflict message and stores
    nothing when the most recent event is not Stopped; its check passes
    exactly when storage holds no event or the most recent event is
    Stopped, and then what it does depends on the task only: when the task
    exists, a Running event is inserted (after which reading
    [event.started] for the reply raises [AttributeError]). So, when every
    stored event but the most recent is Stopped, [event_start] replies
    with the conflict whenever some stored event is not Stopped, and the
    same holds of the storage that [event_start] leaves: at most one event
    is not Stopped. *)
Theorem start_needs_last_event_stopped (conn : Db.Conn) (name : string)
  (now_id now_lap : Z) :
  (forall e, Db.get_last_event conn = Ok e -> status e <> Stopped ->
             event_start conn name now_id now_lap
             = (conn, Ret (ReplyText cannot_start))) /\
  (check_last_event_stopped conn = OK <-> no_running_event_in conn) /\
  (event_start conn name now_id now_lap <> (conn, Ret (ReplyText cannot_start))
     <-> no_running_event_in conn) /\
  (no_running_event_in conn ->
     forall task, Db.get_task_by_name conn name = Ok task ->
       exists event,
         status event = Running /\
         event_start conn name now_id now_lap
         = (Db.insert_event conn event, Raise AttributeError)) /\
  (only_last_may_run (Db.events conn) ->
     forall e, In e (Db.events conn) -> status e <> Stopped ->
               event_start conn name now_id now_lap
               = (conn, Ret (ReplyText cannot_start))) /\
  (only_last_may_run (Db.events conn) ->
     forall conn' reply,
       event_start conn name now_id now_lap = (conn', reply) ->
       only_last_may_run (Db.events conn') /\
       (length (non_stopped (Db.events conn')) <= 1)%nat).
Proof.
  pose proof (event_start_cases conn name now_id now_lap) as Hcases.
  pose proof (check_last_event_stopped_ok conn) as Hok.
  assert (Hconflict : forall e, Db.get_last_event conn = Ok e -> status e <> Stopped ->
                                event_start conn name now_id now_lap
                                = (conn, Ret (ReplyText cannot_start))).
  { intros e He Hst.
    pose proof (check_last_event_stopped_conflict conn e He Hst) as Hc.
    destruct Hcases as [[_ H]|[H _]]; [exact H|]. unfold OK in H. congruence. }
  split; [exact Hconflict|split; [exact Hok|split; [|split; [|split]]]].
  - split.
    + intros Hne. apply Hok.
      destruct Hcases as [[_ H]|[H _]]; [contradiction | exact H].
    + intros Hn Hstart. apply Hok in Hn.
      destruct Hcases as [[H _]|[_ [(e & _ & H)|(task & event & _ & _ & _ & H)]]].
      * unfold OK in Hn. congruence.
      * rewrite H in Hstart. injection Hstart as Hm. discriminate.
      * rewrite H in Hstart. discriminate.
  - intros Hn task Htask. apply Hok in Hn.
    destruct Hcases as [[H _]|[_ [(e & He & _)|(task' & event & Ht & _ & Hst & H)]]].
    + unfold OK in Hn. congruence.
    + congruence.
    + exists event. split; assumption.
  - intros Hinv e Hin Hst.
    destruct (last_event_cases conn) as [[Hnil _]|(pre & e' & Hev & He')].
    + rewrite Hnil in Hin. destruct Hin.
    + rewrite Hev in Hin. apply in_app_or in Hin as [Hin|[<-|[]]].
      * pose proof (Hinv pre e' Hev) as Hpre.
        rewrite List.Forall_forall in Hpre. specialize (Hpre e Hin). contradiction.
      * exact (Hconflict e' He' Hst).
  - intros Hinv conn' reply Hstart.
    assert (Hgoal : only_last_may_run (Db.events conn')).
    { destruct Hcases as [[_ H]|[Hchk [(e & _ & H)|(task & event & _ & _ & _ & H)]]];
        rewrite H in Hstart.
      - injection Hstart as <- _. exact Hinv.
      - injection Hstart as <- _. exact Hinv.
      - injection Hstart as <- _. cbn [Db.insert_event Db.events].
        apply only_last_may_run_snoc.
        apply Hok in Hchk as [Hnil|(e & He & Hst)].
        + rewrite Hnil. constructor.
        + destruct (last_event_cases conn) as [[Hnil _]|(pre & e' & Hev & He')].
          * rewrite Hnil. constructor.
          * assert (e' = e) as -> by congruence.
            rewrite Hev. apply Forall_app. split.
            -- exact (Hinv pre e Hev).
            -- constructor; [exact Hst | constructor]. }
    split; [exact Hgoal | apply non_stopped_at_most_one, Hgoal].
Qed.

Lemma start_needs_last_event_stopped_witness :
  let conn :=
    {| Db.tasks := [{| Task_id := "1000"; Task_name := "code"; Task_alias := "" |}];
       Db.events := [{| id := "rksb8g"; task_id := "1000"; status := Pausing;
                        laps := [("Split", 1667500000, 1667500400, 400);
                                 ("Pause", 1667500400, 0, 0)];
                        work := 0 |}] |} in
  event_start conn "code" 1667500900 1667500900
  = (conn, Ret (ReplyText cannot_start)).
Proof.
  cbv zeta.
  eapply (proj1 (start_needs_last_event_stopped _ "code" 1667500900 1667500900)).
  - reflexivity.
  - cbn. discriminate.
Defined.

Lemma get_last_event_none conn :
  no_running_event_in conn ->
  exists m, get_last_event conn = Err m.
Proof.
  unfold get_last_event. intros [Hnil|(e & He & Hst)].
  - unfold Db.get_last_event. rewrite Hnil. eexists. reflexivity.
  - rewrite He, Hst. eexists. reflexivity.
Qed.

(** C7. When storage holds no event, or the most recent event is Stopped,
    [event_split] and [event_stop] get an error result from
    [get_last_event], print its text, return, and leave storage exactly as
    it was; the methods of the event are not called. *)
Theorem split_and_stop_without_running_event (split stop : EventMethod)
  (conn : Db.Conn) (cfg : Config) (lang : Lang) (now now_shown : Z) :
  no_running_event_in conn ->
  exists m,
    get_last_event conn = Err m /\
    event_split split conn cfg lang now now_shown
    = (conn, ([PText (text lang m)], Ret tt)) /\
    event_stop stop conn cfg lang now now_shown
    = (conn, ([PText (text lang m)], Ret tt)).
Proof.
  intros H. destruct (get_last_event_none conn H) as [m Hm].
  exists m. unfold event_split, event_stop. rewrite Hm.
  repeat split; reflexivity.
Qed.

Lemma split_and_stop_without_running_event_witness :
  let conn :=
    {| Db.tasks := [{| Task_id := "1000"; Task_name := "code"; Task_alias := "" |}];
       Db.events := [{| id := "rksb8g"; task_id := "1000"; status := Stopped;
                        laps := [("Split", 1667500000, 1667500400, 400)];
                        work := 0 |}] |} in
  no_running_event_in conn /\
  exists m,
    get_last_event conn = Err m /\
    event_split (method_of_spec Event_split) conn default_cfg lang_en
                1667500900 1667500900
    = (conn, ([PText (text lang_en m)], Ret tt)) /\
    event_stop (method_of_spec Event_stop) conn default_cfg lang_en
               1667500900 1667500900
    = (conn, ([PText (text lang_en m)], Ret tt)).
Proof.
  cbv zeta.
  assert (H : no_running_event_in
                {| Db.tasks := [{| Task_id := "1000"; Task_name := "code";
                                   Task_alias := "" |}];
                   Db.events := [{| id := "rksb8g"; task_id := "1000"; status := Stopped;
                                    laps := [("Split", 1667500000, 1667500400, 400)];
                                    work := 0 |}] |}).
  { right. eexists. split; reflexivity. }
  split; [exact H|].
  exact (split_and_stop_without_running_event
           (method_of_spec Event_split) (method_of_spec Event_stop)
           _ default_cfg lang_en 1667500900 1667500900 H).
Defined.

Lemma update_laps_ids conn e' :
  map id (Db.events (Db.update_laps conn e')) = map id (Db.events conn).
Proof.
  unfold Db.update_laps. cbn [Db.events]. rewrite map_map.
  apply map_ext. intros r. destruct (String.eqb (id r) (id e')); reflexivity.
Qed.

Lemma last_event_update_laps conn e e' :
  Db.get_last_event conn = Ok e ->
  exists r, Db.get_last_event (Db.update_laps conn e') = Ok r /\ id r = id e.
Proof.
  intros He.
  destruct (last_event_cases conn) as [[_ Hnone]|(pre & e0 & Hev & He0)];
    [congruence|].
  assert (e0 = e) as -> by congruence.
  unfold Db.get_last_event, Db.update_laps. cbn [Db.events].
  rewrite Hev, map_app. cbn [map]. rewrite rev_unit.
  eexists. split; [reflexivity|].
  destruct (String.eqb (id e) (id e')); reflexivity.
Qed.

(** [show_running_status] never comes to its first [print]: it raises
    where it looks the task up, or where it reads [event.started]. *)
Lemma show_running_status_raises conn event task lang now :
  exists x, show_running_status conn event task lang now = ([], Raise x) /\
            (x = AttributeError \/ x = UnwrapError).
Proof.
  unfold show_running_status, quiet, out_bind.
  destruct task as [t|].
  - exists AttributeError. split; [reflexivity | left; reflexivity].
  - unfold unwrap. destruct (Db.get_task_by_id conn (task_id event)).
    + exists AttributeError. split; [reflexivity | left; reflexivity].
    + exists UnwrapError. split; [reflexivity | right; reflexivity].
Qed.



End Commands.

(** ** The lap ledger under split and resume *)

Section Ledger.

Lemma ledger_close_open t pre n s len :
  ledger_close t (pre ++ [(n, s, 0, len)]) = Some (pre ++ [(n, s, t, t - s)]).
Proof.
  unfold ledger_close. rewrite rev_unit. cbn. rewrite rev_involutive. reflexivity.
Qed.

Lemma close_lap_open rule t pre n s len :
  close_lap rule t (pre ++ [(n, s, 0, len)])
  = Some (if rule (n, s, t, t - s) then pre else pre ++ [(n, s, t, t - s)]).
Proof.
  unfold close_lap. rewrite ledger_close_open, rev_unit, rev_involutive. reflexivity.
Qed.

Lemma total_work_app l1 l2 : total_work (l1 ++ l2) = total_work l1 + total_work l2.
Proof.
  unfold total_work. induction l1 as [|lap l1 IH]; cbn [app fold_right]; [lia|].
  rewrite IH. destruct (_ && _); lia.
Qed.

Lemma Event_split_open cfg t e pre s :
  status e = Running ->
  laps e = pre ++ [(LapName_name Split, s, 0, 0)] ->
  Event_split cfg t e
  = Ok (with_ledger e Running
          ((if bool_decide (t - s < split_min cfg * 60) then pre
            else pre ++ [(LapName_name Split, s, t, t - s)])
           ++ [(LapName_name Split, t, 0, 0)])
          (work e)).
Proof.
  intros Hst Hl. unfold Event_split. rewrite Hst, Hl, close_lap_open.
  reflexivity.
Qed.

Lemma ledger_ok_split cfg t pre s :
  0 < t ->
  Forall (fun lap => lap_end lap <> 0) pre ->
  Forall (fun lap => lap_name lap = LapName_name Split ->
                     split_min cfg * 60 <= lap_length lap) pre ->
  ledger_ok cfg
    ((if bool_decide (t - s < split_min cfg * 60) then pre
      else pre ++ [(LapName_name Split, s, t, t - s)])
     ++ [(LapName_name Split, t, 0, 0)]).
Proof.
  intros Ht Hclosed Hlong. unfold ledger_ok.
  case_bool_decide.
  - exists pre, t. repeat split; assumption.
  - exists (pre ++ [(LapName_name Split, s, t, t - s)]), t.
    split; [reflexivity|]. split; apply Forall_app; split; try assumption.
    + constructor; [cbn; lia | constructor].
    + constructor; [cbn; intros _; lia | constructor].
Qed.

Lemma open_laps_ledger_ok cfg l : ledger_ok cfg l -> open_laps l = 1%nat.
Proof.
  intros (pre & s & -> & Hclosed & _). unfold open_laps.
  induction Hclosed as [|lap l Hlap _ IH]; [reflexivity|].
  cbn [app List.filter]. apply Z.eqb_neq in Hlap. rewrite Hlap. exact IH.
Qed.

Lemma split_run_ok cfg ts :
  Forall (fun t => 0 < t) ts ->
  forall e, status e = Running -> ledger_ok cfg (laps e) ->
  exists es,
    split_run cfg ts e = map Ok es /\
    length es = length ts /\
    Forall (fun e' => status e' = Running /\ ledger_ok cfg (laps e')) es.
Proof.
  induction 1 as [|t ts Ht _ IH]; intros e Hst Hok.
  - exists []. repeat split. constructor.
  - destruct Hok as (pre & s & Hl & Hclosed & Hlong).
    cbn [split_run]. rewrite (Event_split_open cfg t e pre s Hst Hl).
    pose proof (ledger_ok_split cfg t pre s Ht Hclosed Hlong) as Hok'.
    match goal with
    | |- context [split_run cfg ts ?e'] =>
        destruct (IH e' eq_refl Hok') as (es & Hrun & Hlen & Hall)
    end.
    eexists (_ :: es). cbn [map length]. rewrite Hrun, Hlen.
    split; [reflexivity|]. split; [reflexivity|].
    constructor; [split; [reflexivity | exact Hok'] | exact Hall].
Qed.

(** C2. For any sequence of [split()] calls on a Running event (at clock
    readings after the epoch), every call succeeds and after each call the
    event is Running and its ledger holds exactly one open lap (end = 0),
    which is its last element, while every closed Split lap in it is at
    least [split_min * 60] seconds long: a call closes the open Split lap
    and keeps it only if it is that long. *)
Theorem split_keeps_one_open_lap_and_long_splits (cfg : Config) (ts : list Z)
  (e : Event) :
  status e = Running ->
  ledger_ok cfg (laps e) ->
  Forall (fun t => 0 < t) ts ->
  exists es,
    split_run cfg ts e = map Ok es /\
    length es = length ts /\
    Forall (fun e' =>
              status e' = Running /\
              open_laps (laps e') = 1%nat /\
              (exists pre s,
                  laps e' = pre ++ [(LapName_name Split, s, 0, 0)] /\
                  Forall (fun lap => lap_end lap <> 0) pre /\
                  Forall (fun lap => lap_name lap = LapName_name Split ->
                                     split_min cfg * 60 <= lap_length lap) pre)) es.
Proof.
  intros Hst Hok Hts.
  destruct (split_run_ok cfg ts Hts e Hst Hok) as (es & Hrun & Hlen & Hall).
  exists es. split; [exact Hrun|]. split; [exact Hlen|].
  eapply List.Forall_impl; [|exact Hall].
  intros e' [Hst' Hok']. split; [exact Hst'|].
  split; [exact (open_laps_ledger_ok cfg _ Hok') | exact Hok'].
Qed.

Lemma split_keeps_one_open_lap_and_long_splits_witness :
  let e := {| id := "rksb8g"; task_id := "1000"; status := Running;
              laps := [("Split", 1667500000, 0, 0)]; work := 0 |} in
  split_run default_cfg [1667500100; 1667500500; 1667500501] e
  = map Ok
      [with_ledger e Running [("Split", 1667500100, 0, 0)] 0;
       with_ledger e Running [("Split", 1667500100, 1667500500, 400);
                              ("Split", 1667500500, 0, 0)] 0;
       with_ledger e Running [("Split", 1667500100, 1667500500, 400);
                              ("Split", 1667500501, 0, 0)] 0] /\
  exists es,
    split_run default_cfg [1667500100; 1667500500; 1667500501] e = map Ok es /\
    length es = 3%nat /\
    Forall (fun e' => status e' = Running /\ open_laps (laps e') = 1%nat) es.
Proof.
  cbv zeta. split; [vm_compute; reflexivity|].
  destruct (split_keeps_one_open_lap_and_long_splits default_cfg
              [1667500100; 1667500500; 1667500501]
              {| id := "rksb8g"; task_id := "1000"; status := Running;
                 laps := [("Split", 1667500000, 0, 0)]; work := 0 |})
    as (es & Hrun & Hlen & Hall).
  - reflexivity.
  - exists [], 1667500000. repeat split; constructor.
  - repeat constructor.
  - exists es. split; [exact Hrun|]. split; [exact Hlen|].
    eapply List.Forall_impl; [|exact Hall].
    intros e' (Hs & Ho & _). exact (conj Hs Ho).
Defined.

(** C3. When [resume()] at time [t] closes the Pause lap opened at [p],
    with [d = t - p]: the Pause lap is dropped from the ledger if and only
    if [d < pause_min * 60] or [d > pause_max * 60]; otherwise it is kept
    with length [d]; it adds nothing to the work of the ledger; and in
    both cases the event is Running again and its last lap is a new open
    Split lap that starts at [t]. *)
Theorem resume_keeps_pause_within_bounds (cfg : Config) (t p : Z) (e : Event)
  (pre : list Lap) :
  status e = Pausing ->
  laps e = pre ++ [(LapName_name Pause, p, 0, 0)] ->
  let d := t - p in
  let dropped := d < pause_min cfg * 60 \/ d > pause_max cfg * 60 in
  exists e',
    Event_resume cfg t e = Ok e' /\
    status e' = Running /\
    (dropped <-> laps e' = pre ++ [(LapName_name Split, t, 0, 0)]) /\
    (~ dropped <->
     laps e' = pre ++ [(LapName_name Pause, p, t, d); (LapName_name Split, t, 0, 0)]) /\
    total_work (laps e') = total_work pre /\
    (exists kept, laps e' = kept ++ [(LapName_name Split, t, 0, 0)]).
Proof.
  intros Hst Hl d dropped.
  unfold Event_resume. rewrite Hst, Hl, close_lap_open.
  eexists. split; [reflexivity|]. cbn [status laps with_ledger].
  split; [reflexivity|].
  unfold pause_discarded, ledger_open. cbn [lap_length].
  fold d. fold dropped.
  case_bool_decide as Hd.
  - repeat split; try tauto.
    + intros Heq. apply app_inv_head in Heq. discriminate.
    + rewrite total_work_app. cbn. lia.
    + exists pre. reflexivity.
  - repeat split; try tauto.
    + intros Heq. rewrite <- app_assoc in Heq. apply app_inv_head in Heq. discriminate.
    + intros _. rewrite <- app_assoc. reflexivity.
    + rewrite !total_work_app. cbn. lia.
    + eexists. reflexivity.
Qed.

Lemma resume_keeps_pause_within_bounds_witness :
  let e := {| id := "rksb8g"; task_id := "1000"; status := Pausing;
              laps := [("Split", 1667500000, 1667500400, 400);
                       ("Pause", 1667500400, 0, 0)]; work := 0 |} in
  exists e',
    Event_resume default_cfg 1667500900 e = Ok e' /\
    status e' = Running /\
    laps e' = [("Split", 1667500000, 1667500400, 400);
               ("Pause", 1667500400, 1667500900, 500);
               ("Split", 1667500900, 0, 0)] /\
    total_work (laps e') = 400.
Proof.
  cbv zeta.
  destruct (resume_keeps_pause_within_bounds default_cfg 1667500900 1667500400
              {| id := "rksb8g"; task_id := "1000"; status := Pausing;
                 laps := [("Split", 1667500000, 1667500400, 400);
                          ("Pause", 1667500400, 0, 0)]; work := 0 |}
              [("Split", 1667500000, 1667500400, 400)] eq_refl eq_refl)
    as (e' & Hres & Hst & _ & Hkept & Hwork & _).
  exists e'. split; [exact Hres|]. split; [exact Hst|].
  split; [apply Hkept; cbn; lia | exact Hwork].
Defined.

End Ledger.

(** ** More on [Ident.base_repr] *)

Section BaseRepr.

Lemma digit_at_value (i : Z) :
  0 <= i < 36 ->
  exists c, Ident.digit_at i = Ret (String c EmptyString) /\
            Ident.digit_value c = Some i /\ Ident.is_base36_char c = true.
Proof.
  intros Hi. unfold Ident.digit_at.
  destruct (Z.ltb_spec i 0) as [?|_]; [lia|].
  assert (Hi' : i = Z.of_nat (Z.to_nat i)) by lia.
  assert (Hn : (Z.to_nat i < 36)%nat) by lia.
  rewrite Hi', Nat2Z.id. clear Hi'.
  destruct (Z.to_nat i) as [|n]; [eexists; repeat split; reflexivity|].
  do 35 (destruct n as [|n]; [eexists; repeat split; reflexivity|]).
  lia.
Qed.

Lemma base_repr_loop_acc base :
  2 <= base <= 36 ->
  forall num, 0 <= num ->
  forall res, Ident.base_repr_loop base num res = Ret (res ++ loop_digits base num).
Proof.
  intros Hb num Hnum.
  refine (Z_lt_induction
            (fun n => 0 <= n -> forall res,
                 Ident.base_repr_loop base n res = Ret (res ++ loop_digits base n))
            _ num Hnum Hnum).
  clear num Hnum. intros num IH Hnum res.
  destruct (Z.eq_dec num 0) as [->|Hne].
  - unfold loop_digits. rewrite !base_repr_loop_zero, List.app_nil_r. reflexivity.
  - assert (Hq : 0 <= num / base < num)
      by (split; [apply Z.div_pos; lia | apply Z.div_lt; lia]).
    destruct (digit_at_value (num mod base)) as (c & Hc & _).
    { pose proof (Z.mod_pos_bound num base ltac:(lia)). lia. }
    assert (Hstep : forall r, Ident.base_repr_loop base num r
                              = Ident.base_repr_loop base (num / base) (r ++ [String c ""])).
    { intros r. rewrite (base_repr_loop_unfold base num r).
      destruct (Z.eq_dec num 0); [lia|].
      destruct (Z_lt_dec 0 num); [|lia].
      destruct (Z_le_dec 2 base); [|lia].
      rewrite Hc. reflexivity. }
    unfold loop_digits. rewrite (Hstep []), (Hstep res).
    rewrite !(IH (num / base)) by lia.
    rewrite <- !app_assoc. reflexivity.
Qed.

Lemma loop_digits_zero base : loop_digits base 0 = [].
Proof. unfold loop_digits. rewrite base_repr_loop_zero. reflexivity. Qed.

Lemma loop_digits_pos base num :
  2 <= base <= 36 -> 0 < num ->
  exists c, Ident.digit_value c = Some (num mod base) /\ Ident.is_base36_char c = true /\
            loop_digits base num = String c "" :: loop_digits base (num / base).
Proof.
  intros Hb Hnum.
  destruct (digit_at_value (num mod base)) as (c & Hc & Hv & Hok).
  { pose proof (Z.mod_pos_bound num base ltac:(lia)). lia. }
  exists c. split; [exact Hv|]. split; [exact Hok|].
  unfold loop_digits at 1. rewrite (base_repr_loop_unfold base num []).
  destruct (Z.eq_dec num 0); [lia|].
  destruct (Z_lt_dec 0 num); [|lia].
  destruct (Z_le_dec 2 base); [|lia].
  rewrite Hc.
  rewrite (base_repr_loop_acc base Hb (num / base) ltac:(apply Z.div_pos; lia)).
  reflexivity.
Qed.

Lemma str_app_cons c (s1 s2 : string) :
  (String c s1 ++ s2)%string = String c (s1 ++ s2)%string.
Proof. reflexivity. Qed.

Lemma str_app_nil_r (s : string) : (s ++ "")%string = s.
Proof.
  induction s as [|c s IH]; [reflexivity|]. now rewrite str_app_cons, IH.
Qed.

Lemma str_app_assoc (s1 s2 s3 : string) :
  ((s1 ++ s2) ++ s3)%string = (s1 ++ (s2 ++ s3))%string.
Proof.
  induction s1 as [|c s1 IH]; [reflexivity|]. now rewrite !str_app_cons, IH.
Qed.

Lemma str_length_app (s1 s2 : string) :
  String.length (s1 ++ s2)%string = (String.length s1 + String.length s2)%nat.
Proof.
  induction s1 as [|c s1 IH]; [reflexivity|].
  rewrite str_app_cons. cbn [String.length]. now rewrite IH.
Qed.

Lemma concat_nosep_cons x l :
  String.concat "" (x :: l) = (x ++ String.concat "" l)%string.
Proof.
  destruct l; [|reflexivity].
  cbn [String.concat]. now rewrite str_app_nil_r.
Qed.

Lemma concat_nosep_app l1 l2 :
  String.concat "" (l1 ++ l2)
  = (String.concat "" l1 ++ String.concat "" l2)%string.
Proof.
  induction l1 as [|x l1 IH]; [reflexivity|].
  rewrite <- app_comm_cons, !concat_nosep_cons, IH, str_app_assoc. reflexivity.
Qed.

Lemma int_digits_app base acc s1 s2 :
  Ident.int_digits base acc (s1 ++ s2)%string
  = Ident.int_digits base acc s1 ≫= fun a => Ident.int_digits base a s2.
Proof.
  revert acc. induction s1 as [|c s1 IH]; intros acc.
  - reflexivity.
  - rewrite str_app_cons. cbn [Ident.int_digits].
    destruct (Ident.digit_value c) as [v|]; [|reflexivity].
    destruct (v <? base); [apply IH | reflexivity].
Qed.

Lemma loop_digits_below base :
  2 <= base <= 36 ->
  forall num, 0 <= num -> Forall (digit_below base) (loop_digits base num).
Proof.
  intros Hb num Hnum.
  refine (Z_lt_induction
            (fun n => 0 <= n -> Forall (digit_below base) (loop_digits base n))
            _ num Hnum Hnum).
  clear num Hnum. intros num IH Hnum.
  destruct (Z.eq_dec num 0) as [->|Hne].
  - rewrite loop_digits_zero. constructor.
  - destruct (loop_digits_pos base num Hb ltac:(lia)) as (c & Hv & Hok & ->).
    assert (Hq : 0 <= num / base < num)
      by (split; [apply Z.div_pos; lia | apply Z.div_lt; lia]).
    constructor; [|apply IH; lia].
    exists c, (num mod base). repeat split; try assumption;
      pose proof (Z.mod_pos_bound num base ltac:(lia)); lia.
Qed.

(** Read back as a number in [base], the digits of [num] give [num]. *)
Lemma int_digits_loop_digits base :
  2 <= base <= 36 ->
  forall num, 0 <= num ->
  forall acc,
    Ident.int_digits base acc (String.concat "" (rev (loop_digits base num)))
    = Ret (acc * base ^ Z.of_nat (length (loop_digits base num)) + num).
Proof.
  intros Hb num Hnum.
  refine (Z_lt_induction
            (fun n => 0 <= n -> forall acc,
                 Ident.int_digits base acc (String.concat "" (rev (loop_digits base n)))
                 = Ret (acc * base ^ Z.of_nat (length (loop_digits base n)) + n))
            _ num Hnum Hnum).
  clear num Hnum. intros num IH Hnum acc.
  destruct (Z.eq_dec num 0) as [->|Hne].
  - rewrite loop_digits_zero. cbn. f_equal. lia.
  - destruct (loop_digits_pos base num Hb ltac:(lia)) as (c & Hv & _ & ->).
    assert (Hq : 0 <= num / base < num)
      by (split; [apply Z.div_pos; lia | apply Z.div_lt; lia]).
    cbn [rev length]. rewrite concat_nosep_app, int_digits_app, (IH (num / base)) by lia.
    cbn [mbind Py_bind String.concat Ident.int_digits]. rewrite Hv.
    pose proof (Z.mod_pos_bound num base ltac:(lia)) as Hm.
    destruct (Z.ltb_spec (num mod base) base); [|lia].
    f_equal. rewrite Nat2Z.inj_succ, Z.pow_succ_r by lia.
    pose proof (Z.div_mod num base ltac:(lia)). nia.
Qed.

Lemma int_digits_zeros base n s :
  0 < base ->
  Ident.int_digits base 0 (String.concat "" (repeat "0" n) ++ s)%string
  = Ident.int_digits base 0 s.
Proof.
  intros Hb. induction n as [|n IH]; [reflexivity|].
  cbn [repeat]. rewrite concat_nosep_cons, str_app_assoc.
  change ("0" ++ ?x)%string with (String "0" x).
  cbn [Ident.int_digits]. change (Ident.digit_value "0") with (Some 0).
  cbv beta iota. rewrite (proj2 (Z.ltb_lt 0 base) Hb).
  replace (0 * base + 0) with 0 by lia. exact IH.
Qed.

Lemma loop_digits_nil base num :
  2 <= base <= 36 -> 0 <= num -> (loop_digits base num = [] <-> num = 0).
Proof.
  intros Hb Hnum. split.
  - intros H. destruct (Z.eq_dec num 0) as [|Hne]; [assumption|].
    destruct (loop_digits_pos base num Hb ltac:(lia)) as (c & _ & _ & Hd).
    congruence.
  - intros ->. apply loop_digits_zero.
Qed.

(** The value of [base_repr] for a base it accepts, on the digits of
    [abs(number)]. *)
Lemma base_repr_digits number base padding :
  2 <= base <= 36 ->
  Ident.base_repr number base padding =
  let res := loop_digits base (Z.abs number) in
  let res := if negb (padding =? 0) then res ++ [Ident.str_repeat "0" padding] else res in
  let res := if number <? 0 then res ++ ["-"] else res in
  Ret (String.concat "" (rev (match res with [] => ["0"] | _ => res end))).
Proof.
  intros Hb. unfold Ident.base_repr.
  change (Z.of_nat (String.length Ident.digits)) with 36.
  destruct (Z.ltb_spec 36 base); [lia|].
  destruct (Z.ltb_spec base 2); [lia|].
  rewrite (base_repr_loop_acc base Hb (Z.abs number) (Z.abs_nonneg _) []).
  reflexivity.
Qed.

Lemma nonempty_or_default {A} (l d : list A) :
  l <> [] -> match l with [] => d | _ => l end = l.
Proof. destruct l; [contradiction | reflexivity]. Qed.

Lemma concat_rev_digits_nonempty base num :
  2 <= base <= 36 -> 0 < num ->
  String.concat "" (rev (loop_digits base num)) <> "".
Proof.
  intros Hb Hnum.
  destruct (loop_digits_pos base num Hb Hnum) as (c & _ & _ & ->).
  cbn [rev]. rewrite concat_nosep_app. cbn [String.concat].
  destruct (String.concat "" (rev (loop_digits base (num / base)))); discriminate.
Qed.

Lemma concat_rev_digits_chars base ds :
  Forall (digit_below base) ds ->
  String.length (String.concat "" (rev ds)) = length ds /\
  Forall (fun c => Ident.is_base36_char c = true)
         (list_ascii_of_string (String.concat "" (rev ds))).
Proof.
  induction 1 as [|d ds (c & v & -> & _ & _ & Hc) _ [IHlen IHchars]].
  - split; [reflexivity | constructor].
  - cbn [rev length]. rewrite concat_nosep_app. cbn [String.concat].
    split.
    + rewrite str_length_app, IHlen. cbn. lia.
    + clear IHlen. revert IHchars.
      generalize (String.concat "" (rev ds)). intros s.
      induction s as [|a s IHs]; intros Hs.
      * cbn. constructor; [exact Hc | constructor].
      * rewrite str_app_cons. cbn [list_ascii_of_string].
        inversion Hs; subst. constructor; [assumption | apply IHs; assumption].
Qed.

(** Reading the string of [base_repr] digit by digit gives the number,
    for a number and a padding that are not negative. *)
Lemma int_digits_base_repr number base padding :
  2 <= base <= 36 -> 0 <= number -> 0 <= padding ->
  exists s, Ident.base_repr number base padding = Ret s /\ s <> "" /\
            Ident.int_digits base 0 s = Ret number.
Proof.
  intros Hb Hn Hp. rewrite (base_repr_digits number base padding Hb).
  cbv zeta. rewrite Z.abs_eq by lia.
  destruct (Z.ltb_spec number 0) as [?|_]; [lia|].
  eexists. split; [reflexivity|].
  pose proof (int_digits_loop_digits base Hb number Hn 0) as Hval.
  rewrite Z.mul_0_l, Z.add_0_l in Hval.
  destruct (Z.eqb_spec padding 0) as [->|Hpad]; cbn [negb].
  - destruct (Z.eq_dec number 0) as [->|Hne].
    + rewrite loop_digits_zero. split; [discriminate|].
      change (Ident.int_digits base 0 _)
        with (if 0 <? base then Ret (A:=Z) (0 * base + 0) else Raise ValueError).
      destruct (Z.ltb_spec 0 base); [reflexivity | lia].
    + rewrite nonempty_or_default
        by (intros H; apply (loop_digits_nil base number Hb Hn) in H; lia).
      split; [apply concat_rev_digits_nonempty; lia | exact Hval].
  - rewrite nonempty_or_default by (destruct (loop_digits base number); discriminate).
    rewrite rev_unit, concat_nosep_cons. unfold Ident.str_repeat.
    assert (Hrep : exists n, Z.to_nat padding = S n) by (exists (Z.to_nat padding - 1)%nat; lia).
    destruct Hrep as [n ->].
    split; [cbn [repeat]; rewrite concat_nosep_cons; discriminate|].
    rewrite int_digits_zeros by lia. exact Hval.
Qed.

Lemma py_int_short s base :
  s <> "" -> Z.of_nat (String.length s) <= Ident.int_max_str_digits ->
  Ident.py_int s base = Ident.int_digits base 0 s.
Proof.
  intros Hs Hlen. unfold Ident.py_int.
  destruct s as [|c s]; [contradiction|].
  destruct (Z.ltb_spec Ident.int_max_str_digits (Z.of_nat (String.length (String c s))));
    [lia|].
  rewrite andb_false_r. reflexivity.
Qed.

Lemma py_int_long s base :
  Ident.int_max_str_digits < Z.of_nat (String.length s) ->
  Ident.power_of_two base = false ->
  Ident.py_int s base = Raise ValueError.
Proof.
  intros Hlen Hb. unfold Ident.py_int.
  destruct s as [|c s]; [reflexivity|].
  destruct (Z.ltb_spec Ident.int_max_str_digits (Z.of_nat (String.length (String c s))));
    [|lia].
  rewrite Hb. reflexivity.
Qed.

Lemma loop_digits_length_le base (k : nat) :
  2 <= base <= 36 ->
  forall num, 0 <= num < base ^ Z.of_nat k ->
              (length (loop_digits base num) <= k)%nat.
Proof.
  intros Hb. induction k as [|k IH]; intros num Hnum.
  - change (base ^ Z.of_nat 0) with 1 in Hnum.
    assert (num = 0) as -> by lia. rewrite loop_digits_zero. reflexivity.
  - destruct (Z.eq_dec num 0) as [->|Hne].
    + rewrite loop_digits_zero. cbn. lia.
    + destruct (loop_digits_pos base num Hb ltac:(lia)) as (c & _ & _ & ->).
      cbn [length]. apply le_n_S. apply IH.
      rewrite Nat2Z.inj_succ, Z.pow_succ_r in Hnum by lia.
      split.
      * apply Z.div_pos; lia.
      * apply Z.div_lt_upper_bound; lia.
Qed.

Lemma str_repeat_zero_length n :
  String.length (String.concat "" (repeat "0" n)) = n.
Proof.
  induction n as [|n IH]; [reflexivity|].
  cbn [repeat]. rewrite concat_nosep_cons, str_length_app, IH. reflexivity.
Qed.

(** The length of the string of [base_repr] for a number below
    [base ^ k]: at most [padding + k] characters, and one for "0". *)
Lemma base_repr_length_le number base padding (k : nat) :
  2 <= base <= 36 -> 0 <= number < base ^ Z.of_nat k -> 0 <= padding ->
  forall s, Ident.base_repr number base padding = Ret s ->
            Z.of_nat (String.length s) <= Z.max 1 (padding + Z.of_nat k).
Proof.
  intros Hb Hn Hp s. rewrite (base_repr_digits number base padding Hb).
  cbv zeta. rewrite Z.abs_eq by lia.
  destruct (Z.ltb_spec number 0) as [?|_]; [lia|].
  pose proof (loop_digits_length_le base k Hb number Hn) as Hk.
  destruct (concat_rev_digits_chars base _
              (loop_digits_below base Hb number ltac:(lia))) as [Hlen _].
  destruct (Z.eqb_spec padding 0) as [->|Hpad]; cbn [negb].
  - destruct (Z.eq_dec number 0) as [->|Hne].
    + rewrite loop_digits_zero. intros H. ret_inv. cbn. lia.
    + rewrite nonempty_or_default
        by (intros H; apply (loop_digits_nil base number Hb ltac:(lia)) in H; lia).
      intros H. ret_inv. rewrite Hlen. lia.
  - rewrite nonempty_or_default by (destruct (loop_digits base number); discriminate).
    rewrite rev_unit, concat_nosep_cons. unfold Ident.str_repeat.
    intros H. ret_inv.
    rewrite str_length_app, str_repeat_zero_length, Hlen. lia.
Qed.

(** X1. Without padding, [base_repr] returns a string exactly for the
    bases from 2 to 36, whatever the number: its loop ends and never
    indexes outside the digits. For every other base it raises
    [ValueError], whatever the number and the padding. *)
Theorem base_repr_returns_iff_base_2_to_36 (number base : Z) :
  ((exists s, Ident.base_repr number base 0 = Ret s) <-> 2 <= base <= 36) /\
  (forall padding,
      ~ 2 <= base <= 36 -> Ident.base_repr number base padding = Raise ValueError).
Proof.
  assert (H : forall padding, ~ 2 <= base <= 36 ->
                              Ident.base_repr number base padding = Raise ValueError).
  { intros padding Hb. unfold Ident.base_repr.
    change (Z.of_nat (String.length Ident.digits)) with 36.
    destruct (Z.ltb_spec 36 base); [reflexivity|].
    destruct (Z.ltb_spec base 2); [reflexivity | lia]. }
  split; [|exact H].
  destruct (decide (2 <= base <= 36)) as [Hb|Hb].
  - destruct (base_repr_total number base 0 Hb) as [s Hs].
    split; [tauto | eauto].
  - split; [|tauto].
    intros [s Hs]. rewrite (H 0 Hb) in Hs. discriminate.
Qed.

Lemma base_repr_returns_iff_base_2_to_36_witness :
  Ident.base_repr 1667500000 37 2 = Raise ValueError.
Proof.
  apply (proj2 (base_repr_returns_iff_base_2_to_36 1667500000 37) 2). lia.
Defined.

(** X2. For a base from 2 to 36 and a number that is not 0, the string of
    [base_repr] is the sign ("-" for a negative number), then [padding]
    zeros, then the digits of the absolute value; for the number 0 it is
    "0" without padding and otherwise [padding] zeros only (no digit 0 is
    added to them). *)
Theorem base_repr_sign_then_padding_then_digits (number base padding : Z) :
  2 <= base <= 36 ->
  (number <> 0 ->
   exists s,
     Ident.base_repr (Z.abs number) base 0 = Ret s /\ s <> "" /\
     Ident.base_repr number base padding
     = Ret ((if (number <? 0)%Z then "-" else "")
              ++ Ident.str_repeat "0" padding ++ s)%string) /\
  (number = 0 ->
   Ident.base_repr number base padding
   = Ret (if padding =? 0 then "0" else Ident.str_repeat "0" padding)).
Proof.
  intros Hb. split.
  - intros Hne.
    assert (Hds : loop_digits base (Z.abs number) <> []).
    { intros H. apply (loop_digits_nil base _ Hb (Z.abs_nonneg _)) in H. lia. }
    exists (String.concat "" (rev (loop_digits base (Z.abs number)))).
    split; [|split].
    + rewrite (base_repr_digits _ base 0 Hb). cbv zeta.
      rewrite Z.abs_idemp. cbn [Z.eqb negb].
      destruct (Z.ltb_spec (Z.abs number) 0); [lia|].
      rewrite nonempty_or_default by exact Hds. reflexivity.
    + apply concat_rev_digits_nonempty; [exact Hb | lia].
    + rewrite (base_repr_digits number base padding Hb). cbv zeta.
      assert (Hzeros : padding = 0 -> Ident.str_repeat "0" padding = "")
        by (intros ->; reflexivity).
      destruct (Z.eqb_spec padding 0) as [Hpad|Hpad]; cbn [negb];
        destruct (number <? 0).
      * rewrite nonempty_or_default by (destruct (loop_digits base (Z.abs number)); discriminate).
        rewrite rev_unit, concat_nosep_cons, (Hzeros Hpad). reflexivity.
      * rewrite nonempty_or_default by exact Hds.
        rewrite (Hzeros Hpad). reflexivity.
      * rewrite nonempty_or_default
          by (destruct (loop_digits base (Z.abs number)); discriminate).
        rewrite !rev_unit, !concat_nosep_cons. reflexivity.
      * rewrite nonempty_or_default
          by (destruct (loop_digits base (Z.abs number)); discriminate).
        rewrite rev_unit, concat_nosep_cons. reflexivity.
  - intros ->. rewrite (base_repr_digits 0 base padding Hb). cbv zeta.
    change (Z.abs 0) with 0. rewrite loop_digits_zero.
    destruct (Z.eqb_spec padding 0); reflexivity.
Qed.

Lemma base_repr_sign_then_padding_then_digits_witness :
  Ident.base_repr (-5) 2 3 = Ret "-000101" /\
  Ident.base_repr 0 36 3 = Ret "000".
Proof.
  destruct (base_repr_sign_then_padding_then_digits (-5) 2 3 ltac:(lia)) as [Hne _].
  destruct (base_repr_sign_then_padding_then_digits 0 36 3 ltac:(lia)) as [_ Hz].
  split.
  - destruct (Hne ltac:(lia)) as (s & Hs & _ & ->).
    assert (s = "101") as -> by (vm_compute in Hs; congruence).
    reflexivity.
  - exact (Hz eq_refl).
Defined.

(** X3. Reading the string of [base_repr] back with [int(s, base)] gives
    the number, for a base from 2 to 36, a number from 0 below [base ^ k]
    and a padding from 0 with [padding + k] at most 4300: the string has
    at most 4300 characters, the most that [int] reads in a base that is
    not a power of two. A string of [base_repr] longer than that is
    refused by [int] with [ValueError] in such a base. *)
Theorem int_of_base_repr_is_number (number base padding : Z) (k : nat) :
  2 <= base <= 36 -> 0 <= number < base ^ Z.of_nat k -> 0 <= padding ->
  (padding + Z.of_nat k <= 4300 ->
   exists s, Ident.base_repr number base padding = Ret s /\
             Z.of_nat (String.length s) <= 4300 /\
             Ident.py_int s base = Ret number) /\
  (forall s, Ident.base_repr number base padding = Ret s ->
             4300 < Z.of_nat (String.length s) ->
             Ident.power_of_two base = false ->
             Ident.py_int s base = Raise ValueError).
Proof.
  intros Hb Hn Hp. split.
  - intros Hk.
    destruct (int_digits_base_repr number base padding Hb ltac:(lia) Hp)
      as (s & Hs & Hne & Hval).
    pose proof (base_repr_length_le number base padding k Hb Hn Hp s Hs) as Hlen.
    exists s. split; [exact Hs|]. split; [lia|].
    rewrite py_int_short; [exact Hval | exact Hne|].
    unfold Ident.int_max_str_digits. lia.
  - intros s _ Hlen Hpow. apply py_int_long; assumption.
Qed.

Lemma int_of_base_repr_is_number_witness :
  exists s, Ident.base_repr 1667500000 36 2 = Ret s /\
            Z.of_nat (String.length s) <= 4300 /\
            Ident.py_int s 36 = Ret 1667500000.
Proof.
  apply (proj1 (int_of_base_repr_is_number 1667500000 36 2 6
                  ltac:(lia) ltac:(cbn; lia) ltac:(lia))).
  cbn. lia.
Defined.

(** X4. [date_id] gives different ids at different clock readings (from
    the epoch on): equal ids come from equal readings. *)
Theorem date_id_injective (t1 t2 : Z) :
  0 <= t1 -> 0 <= t2 -> Ident.date_id t1 = Ident.date_id t2 -> t1 = t2.
Proof.
  intros H1 H2 Heq. unfold Ident.date_id in Heq.
  destruct (int_digits_base_repr t1 36 0 ltac:(lia) H1 ltac:(lia)) as (s1 & Hs1 & _ & Hv1).
  destruct (int_digits_base_repr t2 36 0 ltac:(lia) H2 ltac:(lia)) as (s2 & Hs2 & _ & Hv2).
  rewrite Hs1, Hs2 in Heq. assert (s1 = s2) as -> by congruence.
  congruence.
Qed.

Lemma date_id_injective_witness :
  Ident.date_id 1667500000 = Ident.date_id 1667500000 /\ 1667500000 = 1667500000.
Proof.
  split; [reflexivity|].
  apply (date_id_injective 1667500000 1667500000); [lia | lia | reflexivity].
Defined.

Lemma loop_digits_length base (k : nat) :
  2 <= base <= 36 ->
  forall num, base ^ Z.of_nat k <= num < base ^ Z.of_nat (S k) ->
              length (loop_digits base num) = S k.
Proof.
  intros Hb. induction k as [|k IH]; intros num Hnum.
  - change (base ^ Z.of_nat 0) with 1 in Hnum.
    change (Z.of_nat 1) with 1 in Hnum. rewrite Z.pow_1_r in Hnum.
    destruct (loop_digits_pos base num Hb ltac:(lia)) as (c & _ & _ & ->).
    rewrite Z.div_small by lia. rewrite loop_digits_zero. reflexivity.
  - assert (Hpos : 0 < base ^ Z.of_nat (S k)) by (apply Z.pow_pos_nonneg; lia).
    destruct (loop_digits_pos base num Hb ltac:(lia)) as (c & _ & _ & ->).
    cbn [length]. f_equal. apply IH.
    rewrite !Nat2Z.inj_succ, !Z.pow_succ_r in * by lia.
    split.
    + apply Z.div_le_lower_bound; lia.
    + apply Z.div_lt_upper_bound; lia.
Qed.

(** X5. At a clock reading [now] with [36^k <= now < 36^(k+1)], the id of
    [date_id] has exactly [k + 1] characters, all of [0-9a-z]; so event ids
    have six characters for every reading from 36^5 to 36^6 - 1. *)
Theorem date_id_length (k : nat) (now : Z) :
  36 ^ Z.of_nat k <= now < 36 ^ Z.of_nat (S k) ->
  exists s, Ident.date_id now = Ret s /\
            String.length s = S k /\
            Forall (fun c => Ident.is_base36_char c = true) (list_ascii_of_string s).
Proof.
  intros Hnow.
  assert (Hpos : 0 < 36 ^ Z.of_nat k) by (apply Z.pow_pos_nonneg; lia).
  unfold Ident.date_id. rewrite (base_repr_digits now 36 0 ltac:(lia)). cbv zeta.
  rewrite Z.abs_eq by lia. cbn [Z.eqb negb].
  destruct (Z.ltb_spec now 0) as [?|_]; [lia|].
  rewrite nonempty_or_default
    by (intros H; apply (loop_digits_nil 36 now ltac:(lia) ltac:(lia)) in H; lia).
  eexists. split; [reflexivity|].
  destruct (concat_rev_digits_chars 36 _ (loop_digits_below 36 ltac:(lia) now ltac:(lia)))
    as [Hlen Hchars].
  split; [|exact Hchars].
  rewrite Hlen. apply loop_digits_length; [lia | exact Hnow].
Qed.

Lemma date_id_length_witness :
  exists s, Ident.date_id 1667500000 = Ret s /\ String.length s = 6%nat.
Proof.
  destruct (date_id_length 5 1667500000 ltac:(cbn; lia)) as (s & Hs & Hlen & _).
  exists s. split; assumption.
Defined.

End BaseRepr.

(** ** More on [pack] and [unpack] *)

Section PackUnpack.
Import Msgpack.

Lemma pack_int_range z data : pack_int z = Ret data -> msgpack_int z.
Proof.
  unfold pack_int, msgpack_int. intros H.
  repeat case_bool_decide; try discriminate; lia.
Qed.

Lemma pack_int_overflow z : ~ msgpack_int z -> pack_int z = Raise OverflowError.
Proof.
  unfold pack_int, msgpack_int. intros H.
  repeat (case_bool_decide; [lia|]). reflexivity.
Qed.

Lemma pack_str_range s data :
  pack_str s = Ret data -> Z.of_nat (String.length s) < 2 ^ 32.
Proof.
  unfold pack_str. rewrite length_list_byte_of_string.
  case_bool_decide; [discriminate | lia].
Qed.

Lemma pack_array_header_range n hdr :
  pack_array_header n = Ret hdr -> n < 2 ^ 32.
Proof.
  unfold pack_array_header. intros H.
  repeat case_bool_decide; try discriminate; lia.
Qed.

Lemma pack_lap_range l nl data :
  pack_obj (obj_of_lap l) nl = Ret data -> lap_packable l.
Proof.
  destruct l as [[[n s] e] len]. unfold obj_of_lap.
  rewrite pack_obj_unfold. intros Hp.
  case_bool_decide; [discriminate|].
  apply bind_Ret_inv in Hp as (hdr & _ & Hp).
  apply bind_Ret_inv in Hp as (body & Hbody & _).
  cbn [pack_items] in Hbody. rewrite !pack_obj_unfold in Hbody.
  case_bool_decide; [discriminate|].
  apply bind_Ret_inv in Hbody as (dn & Hn & Hbody).
  apply bind_Ret_inv in Hbody as (r1 & Hbody & _).
  apply bind_Ret_inv in Hbody as (ds & Hs & Hbody).
  apply bind_Ret_inv in Hbody as (r2 & Hbody & _).
  apply bind_Ret_inv in Hbody as (de & He & Hbody).
  apply bind_Ret_inv in Hbody as (r3 & Hbody & _).
  apply bind_Ret_inv in Hbody as (dl & Hl & _).
  repeat split; cbn [lap_name lap_start lap_end lap_length].
  - exact (pack_str_range _ _ Hn).
  - exact (proj1 (pack_int_range _ _ Hs)).
  - exact (proj2 (pack_int_range _ _ Hs)).
  - exact (proj1 (pack_int_range _ _ He)).
  - exact (proj2 (pack_int_range _ _ He)).
  - exact (proj1 (pack_int_range _ _ Hl)).
  - exact (proj2 (pack_int_range _ _ Hl)).
Qed.

Lemma pack_laps_items_range ls nl body :
  pack_items (fun x => pack_obj x nl) (map obj_of_lap ls) = Ret body ->
  Forall lap_packable ls.
Proof.
  revert body. induction ls as [|l ls IH]; intros body Hp; [constructor|].
  cbn [map pack_items] in Hp.
  apply bind_Ret_inv in Hp as (a & Ha & Hp).
  apply bind_Ret_inv in Hp as (b & Hb & _).
  constructor; [exact (pack_lap_range _ _ _ Ha) | exact (IH _ Hb)].
Qed.

(** X6. Whenever [pack] returns on a value made of integers, strings and
    tuples, [unpack] of the bytes returns that value; so two values with
    the same packed bytes are equal. *)
Theorem unpack_pack_any_value (o : obj) (data : list byte) :
  pack o = Ret data ->
  unpack data = Ret o /\
  (forall o', pack o' = Ret data -> o' = o).
Proof.
  intros Hp. pose proof (unpackb_packb o data Hp) as Hu.
  split; [exact Hu|].
  intros o' Hp'. pose proof (unpackb_packb o' data Hp') as Hu'.
  unfold unpack in *. congruence.
Qed.

Lemma unpack_pack_any_value_witness :
  exists data,
    pack (OArr [OInt (-70000); OStr "lap"; OArr [OInt 255; OArr []]]) = Ret data /\
    unpack data = Ret (OArr [OInt (-70000); OStr "lap"; OArr [OInt 255; OArr []]]).
Proof.
  eexists.
  assert (H : pack (OArr [OInt (-70000); OStr "lap"; OArr [OInt 255; OArr []]]) = Ret _)
    by (vm_compute; reflexivity).
  split; [exact H|].
  exact (proj1 (unpack_pack_any_value _ _ H)).
Defined.

(** X7. [unpack] raises [ValueError] on packed bytes that are followed by
    anything more: it accepts one value and no trailing data. *)
Theorem unpack_rejects_trailing_bytes (o : obj) (data : list byte)
  (b : byte) (more : list byte) :
  pack o = Ret data ->
  unpack (data ++ b :: more) = Raise ValueError.
Proof.
  intros Hp. unfold unpack, unpackb.
  rewrite (unpack_pack_obj _ _ _ _ (b :: more) Hp)
    by (rewrite length_app; lia).
  reflexivity.
Qed.

Lemma unpack_rejects_trailing_bytes_witness :
  exists data,
    pack (obj_of_laps [("Split", 1667500000, 0, 0)]) = Ret data /\
    unpack (data ++ [x00]) = Raise ValueError.
Proof.
  eexists.
  assert (H : pack (obj_of_laps [("Split", 1667500000, 0, 0)]) = Ret _)
    by (vm_compute; reflexivity).
  split; [exact H|].
  exact (unpack_rejects_trailing_bytes _ _ x00 [] H).
Defined.

(** X8. [pack] returns on a lap sequence exactly when every start, end and
    length is an integer from -2^63 to 2^64-1 and the names and the number
    of laps are below 2^32; an integer outside that range makes [pack] of
    it raise [OverflowError]. *)
Theorem pack_laps_returns_iff_in_range (ls : list Lap) :
  ((exists data, pack (obj_of_laps ls) = Ret data) <-> laps_packable ls) /\
  (forall z, ~ msgpack_int z -> pack (OInt z) = Raise OverflowError).
Proof.
  split; [split|].
  - intros [data Hp]. unfold pack, packb, obj_of_laps in Hp.
    rewrite pack_obj_unfold in Hp.
    case_bool_decide; [discriminate|].
    apply bind_Ret_inv in Hp as (hdr & Hhdr & Hp).
    apply bind_Ret_inv in Hp as (body & Hbody & _).
    rewrite length_map in Hhdr.
    split; [exact (pack_array_header_range _ _ Hhdr)|].
    exact (pack_laps_items_range _ _ _ Hbody).
  - apply pack_laps_ok.
  - intros z Hz. unfold pack, packb. rewrite pack_obj_unfold.
    unfold DEFAULT_RECURSE_LIMIT. rewrite bool_decide_eq_false_2 by lia.
    exact (pack_int_overflow z Hz).
Qed.

Lemma pack_laps_returns_iff_in_range_witness :
  (exists data, pack (obj_of_laps [("Split", 1667500000, 1667500400, 400)]) = Ret data) /\
  pack (OInt (2 ^ 64)) = Raise OverflowError.
Proof.
  destruct (pack_laps_returns_iff_in_range [("Split", 1667500000, 1667500400, 400)])
    as [Hiff Hover].
  split.
  - apply Hiff. split; [cbn; lia|]. repeat constructor; cbn; lia.
  - apply Hover. unfold msgpack_int. lia.
Defined.

End PackUnpack.

(** ** More on [Event] and [new_task] *)

Section Records.

Lemma get_str_cases (d : gmap string PyVal) key default :
  str_or_absent d key ->
  (d !! key = None /\ get_str d key default = Ret default) \/
  (exists s, d !! key = Some (VStr s) /\ get_str d key default = Ret s).
Proof.
  unfold str_or_absent, get_str.
  destruct (d !! key) as [[s|b|z]|]; intros H; try contradiction.
  - right. exists s. split; reflexivity.
  - left. split; reflexivity.
Qed.

(** X9. [Event(d)] raises [KeyError] when [d] has no "task_id", and when
    its "status" is a string other than Running, Pausing and Stopped. *)
Theorem Event_init_key_errors (d : gmap string PyVal) (now_id now_lap : Z) :
  str_or_absent d "id" ->
  (d !! "task_id" = None -> Event_init d now_id now_lap = Raise KeyError) /\
  (forall tid name,
      d !! "task_id" = Some (VStr tid) ->
      d !! "status" = Some (VStr name) ->
      name <> "Running" -> name <> "Pausing" -> name <> "Stopped" ->
      Event_init d now_id now_lap = Raise KeyError).
Proof.
  intros Hid.
  destruct (date_id_total now_id) as [fresh Hfresh].
  destruct (get_str_typed d "id" fresh Hid) as [eid Heid].
  split.
  - intros Htid. unfold Event_init. rewrite Hfresh. cbn [mbind Py_bind].
    rewrite Heid. cbn [mbind Py_bind]. unfold item_str. rewrite Htid. reflexivity.
  - intros tid name Htid Hst H1 H2 H3.
    unfold Event_init. rewrite Hfresh. cbn [mbind Py_bind].
    rewrite Heid. cbn [mbind Py_bind]. unfold item_str. rewrite Htid.
    cbn [as_str mbind Py_bind]. unfold get_str. rewrite Hst.
    cbn [as_str mbind Py_bind]. unfold EventStatus_of_name.
    apply String.eqb_neq in H1, H2, H3. rewrite H1, H2, H3. reflexivity.
Qed.

Lemma Event_init_key_errors_witness :
  Event_init {[ "status" := VStr "Running" ]} 1667500000 1667500000 = Raise KeyError /\
  Event_init (<["status" := VStr "running"]> {[ "task_id" := VStr "1000" ]})
             1667500000 1667500000 = Raise KeyError.
Proof.
  split.
  - apply (Event_init_key_errors {[ "status" := VStr "Running" ]}); reflexivity.
  - apply (proj2 (Event_init_key_errors
                    (<["status" := VStr "running"]> {[ "task_id" := VStr "1000" ]})
                    1667500000 1667500000 ltac:(vm_compute; exact I))
             "1000" "running");
      (reflexivity || discriminate).
Defined.

(** X10. The laps of [Event(d)]: when [d] has no "laps", or an empty
    blob under it, they are the one open Split lap that starts at the
    current clock reading; when [d] has a blob that is not empty, they are
    what [unpack] reads from it; and when [unpack] raises on that blob,
    [Event(d)] raises the same error, provided [d] has a "task_id" and its
    "status" is absent or one of Running, Pausing and Stopped (the status
    is looked up first). *)
Theorem Event_init_laps (d : gmap string PyVal) (now_id now_lap : Z) :
  (forall e,
      Event_init d now_id now_lap = Ret e ->
      d !! "laps" = None \/ d !! "laps" = Some (VBytes []) ->
      laps e = [(LapName_name Split, now_lap, 0, 0)]) /\
  (forall e b data,
      Event_init d now_id now_lap = Ret e ->
      d !! "laps" = Some (VBytes (b :: data)) ->
      exists o, unpack (b :: data) = Ret o /\ laps_of_obj o = Some (laps e)) /\
  (forall tid b data x,
      str_or_absent d "id" ->
      d !! "task_id" = Some (VStr tid) ->
      d !! "status" = None \/
      (exists st, d !! "status" = Some (VStr (EventStatus_name st))) ->
      d !! "laps" = Some (VBytes (b :: data)) ->
      unpack (b :: data) = Raise x ->
      Event_init d now_id now_lap = Raise x).
Proof.
  split; [|split].
  - intros e He Hl. unfold Event_init in He.
    do 5 (apply bind_Ret_inv in He as (? & _ & He)).
    apply bind_Ret_inv in He as (ls & Hls & He).
    apply bind_Ret_inv in He as (w & _ & He). ret_inv. cbn [laps].
    destruct Hl as [Hl|Hl]; rewrite Hl in Hls; cbn [truthy] in Hls;
      injection Hls as <-; reflexivity.
  - intros e b data He Hl. unfold Event_init in He.
    do 5 (apply bind_Ret_inv in He as (? & _ & He)).
    apply bind_Ret_inv in He as (ls & Hls & He).
    apply bind_Ret_inv in He as (w & _ & He). ret_inv. cbn [laps].
    rewrite Hl in Hls. cbn [truthy] in Hls.
    apply bind_Ret_inv in Hls as (o & Ho & Hls).
    exists o. split; [exact Ho|].
    destruct (laps_of_obj o) as [ls'|]; [injection Hls as <-; reflexivity | discriminate].
  - intros tid b data x Hid Htid Hst Hl Hx.
    destruct (date_id_total now_id) as [fresh Hfresh].
    destruct (get_str_typed d "id" fresh Hid) as [eid Heid].
    assert (Hname : exists st name, get_str d "status" "Running" = Ret name /\
                                    EventStatus_of_name name = Ret st).
    { unfold get_str. destruct Hst as [->|(st & ->)].
      - exists Running, "Running". split; reflexivity.
      - exists st, (EventStatus_name st).
        split; [reflexivity | apply EventStatus_of_name_name]. }
    destruct Hname as (st & name & Hname & Est).
    unfold Event_init. rewrite Hfresh. cbn [mbind Py_bind].
    rewrite Heid. cbn [mbind Py_bind]. unfold item_str. rewrite Htid.
    cbn [as_str mbind Py_bind]. rewrite Hname. cbn [mbind Py_bind].
    rewrite Est. cbn [mbind Py_bind]. rewrite Hl. cbn [truthy].
    rewrite Hx. reflexivity.
Qed.

Lemma Event_init_laps_witness :
  (exists e,
      Event_init (<["laps" := VBytes []]> {[ "task_id" := VStr "1000" ]})
                 1667500000 1667500007 = Ret e /\
      laps e = [(LapName_name Split, 1667500007, 0, 0)]) /\
  Event_init (<["laps" := VBytes [Byte.x91]]> {[ "task_id" := VStr "1000" ]})
             1667500000 1667500007 = Raise ValueError.
Proof.
  split.
  - eexists.
    assert (H : Event_init (<["laps" := VBytes []]> {[ "task_id" := VStr "1000" ]})
                           1667500000 1667500007 = Ret _) by (vm_compute; reflexivity).
    split; [exact H|].
    apply (proj1 (Event_init_laps _ _ _) _ H).
    right. reflexivity.
  - apply (proj2 (proj2 (Event_init_laps
                           (<["laps" := VBytes [Byte.x91]]>
                              {[ "task_id" := VStr "1000" ]})
                           1667500000 1667500007))
             "1000" Byte.x91 []).
    + vm_compute. exact I.
    + reflexivity.
    + left. reflexivity.
    + reflexivity.
    + reflexivity.
Defined.

Lemma rand_id_in_range_four (randrange : Z -> Z -> Z) :
  (forall lo hi, lo < hi -> lo <= randrange lo hi < hi) ->
  four_base36 (Ident.rand_id randrange).
Proof.
  intros Hrange. unfold Ident.rand_id.
  change (Ident.py_int "1000" 36) with (Ret (A:=Z) 46656).
  change (Ident.py_int "zzzz" 36) with (Ret (A:=Z) 1679615).
  cbn [mbind Py_bind]. apply base_repr_four_digits.
  specialize (Hrange 46656 (1679615 + 1) ltac:(lia)). lia.
Qed.

(** X11. [new_task(d)] raises [KeyError] when [d] has no "name". When it
    returns a task, the task has the name of [d], the alias of [d] or the
    empty alias when [d] has none, and the id of [d]; when [d] has no id,
    the id is four characters of [0-9a-z] drawn by [rand_id]. *)
Theorem new_task_fields (d : gmap string PyVal) (randrange : Z -> Z -> Z) :
  str_or_absent d "id" -> str_or_absent d "alias" ->
  (d !! "name" = None -> new_task d randrange = Raise KeyError) /\
  (forall task,
      new_task d randrange = Ret (Ok task) ->
      d !! "name" = Some (VStr (Task_name task)) /\
      (d !! "alias" = None -> Task_alias task = "") /\
      (forall a, d !! "alias" = Some (VStr a) -> Task_alias task = a) /\
      (forall i, d !! "id" = Some (VStr i) -> Task_id task = i) /\
      (d !! "id" = None ->
       (forall lo hi, lo < hi -> lo <= randrange lo hi < hi) ->
       four_base36 (Ret (Task_id task)))).
Proof.
  intros Hid Halias.
  destruct (rand_id_total randrange) as [fresh Hfresh].
  assert (Hrun : new_task d randrange =
                 t_id ← get_str d "id" fresh;
                 name ← item_str d "name";
                 alias ← get_str d "alias" "";
                 match err (check_name name) with
                 | None => Ret (Ok {| Task_id := t_id; Task_name := name;
                                      Task_alias := alias |})
                 | Some e => Ret (Err e)
                 end).
  { unfold new_task. rewrite Hfresh. reflexivity. }
  split.
  - intros Hname. rewrite Hrun.
    destruct (get_str_typed d "id" fresh Hid) as [t_id ->].
    cbn [mbind Py_bind]. unfold item_str. rewrite Hname. reflexivity.
  - intros task Htask. rewrite Hrun in Htask.
    apply bind_Ret_inv in Htask as (t_id & Ht_id & Htask).
    apply bind_Ret_inv in Htask as (name & Hname & Htask).
    apply bind_Ret_inv in Htask as (alias & Ha & Htask).
    destruct (err (check_name name)); [ret_inv; discriminate|].
    assert (task = {| Task_id := t_id; Task_name := name; Task_alias := alias |})
      as -> by congruence.
    cbn [Task_id Task_name Task_alias].
    split; [|split; [|split; [|split]]].
    + unfold item_str in Hname.
      destruct (d !! "name") as [[s|b|z]|]; cbn in Hname; ret_inv; reflexivity || discriminate.
    + intros Hnone. unfold get_str in Ha. rewrite Hnone in Ha. congruence.
    + intros a Hsome. unfold get_str in Ha. rewrite Hsome in Ha. cbn in Ha. congruence.
    + intros i Hsome. unfold get_str in Ht_id. rewrite Hsome in Ht_id. cbn in Ht_id.
      congruence.
    + intros Hnone Hrange. unfold get_str in Ht_id. rewrite Hnone in Ht_id.
      assert (t_id = fresh) as -> by congruence.
      rewrite <- Hfresh. exact (rand_id_in_range_four randrange Hrange).
Qed.

Lemma new_task_fields_witness :
  new_task {[ "alias" := VStr "writing" ]} (fun lo _ => lo) = Raise KeyError /\
  exists task,
    new_task (<["id" := VStr "a1b2"]> {[ "name" := VStr "blog" ]}) (fun lo _ => lo)
    = Ret (Ok task) /\
    Task_id task = "a1b2" /\ Task_alias task = "".
Proof.
  split.
  - apply (new_task_fields {[ "alias" := VStr "writing" ]} (fun lo _ => lo));
      vm_compute; (exact I || reflexivity).
  - eexists.
    assert (H : new_task (<["id" := VStr "a1b2"]> {[ "name" := VStr "blog" ]})
                         (fun lo _ => lo) = Ret (Ok _)) by (vm_compute; reflexivity).
    split; [exact H|].
    destruct (new_task_fields (<["id" := VStr "a1b2"]> {[ "name" := VStr "blog" ]})
                (fun lo _ => lo) ltac:(vm_compute; exact I) ltac:(vm_compute; exact I))
      as [_ Hf].
    destruct (Hf _ H) as (_ & Hal & _ & Hi & _).
    split; [apply Hi; reflexivity | apply Hal; reflexivity].
Defined.

End Records.

(** ** More on the commands *)

Section MoreCommands.

(** X12. [get_last_event] of util.py returns an event exactly when
    [check_last_event_stopped] returns the conflict error, and an error
    exactly when that check returns OK: on any storage either a new
    event can start, or there is an event to split and stop, never
    both. *)
Theorem running_event_or_start_allowed (conn : Db.Conn) :
  ((exists e, get_last_event conn = Ok e) <->
   check_last_event_stopped conn = Err cannot_start) /\
  ((exists m, get_last_event conn = Err m) <->
   check_last_event_stopped conn = OK) /\
  (forall e, get_last_event conn = Ok e ->
             Db.get_last_event conn = Ok e /\ status e <> Stopped).
Proof.
  unfold get_last_event, check_last_event_stopped, OK.
  destruct (Db.get_last_event conn) as [e|m].
  - destruct (status e) eqn:Hst; (split; [|split]);
      try (split; [intros [? H]; (discriminate H || reflexivity)
                  | intros H; (discriminate H || eauto)]);
      intros e' He'; injection He' as <- || discriminate He';
      (split; [reflexivity | congruence]).
  - split; [|split].
    + split; [intros [? H]; discriminate H | intros H; discriminate H].
    + split; [reflexivity | eauto].
    + intros e' He'. discriminate He'.
Qed.

(** X13. What [event_start] does, in the order of its tests: with an
    event that is not Stopped as the most recent one it returns the
    conflict text and storage is unchanged, before the task is looked up;
    otherwise, when no task has the name, it returns the Not Found text
    that names the task and storage is unchanged; otherwise it appends
    one new Running event of that task to storage and then raises
    [AttributeError], where it reads [event.started] for its reply. *)
Theorem event_start_three_outcomes (conn : Db.Conn) (name : string)
  (now_id now_lap : Z) :
  (event_start conn name now_id now_lap = (conn, Ret (ReplyText cannot_start)) /\
   ~ no_running_event_in conn) \/
  (event_start conn name now_id now_lap
   = (conn, Ret (ReplyText (task_not_found name))) /\
   no_running_event_in conn /\
   exists m, Db.get_task_by_name conn name = Err m) \/
  (exists task event,
      event_start conn name now_id now_lap
      = ({| Db.tasks := Db.tasks conn; Db.events := Db.events conn ++ [event] |},
         Raise AttributeError) /\
      no_running_event_in conn /\
      Db.get_task_by_name conn name = Ok task /\
      Event_init {[ "task_id" := VStr (Task_id task) ]} now_id now_lap = Ret event /\
      status event = Running /\ task_id event = Task_id task).
Proof.
  pose proof (check_last_event_stopped_ok conn) as Hok.
  destruct (event_start_cases conn name now_id now_lap)
    as [[Hchk H]|[Hchk [(m & Hm & H)|(task & event & Ht & Hinit & Hst & H)]]].
  - left. split; [exact H|]. intros Hn. apply Hok in Hn. unfold OK in Hn. congruence.
  - right. left. split; [exact H|]. split; [apply Hok; exact Hchk | eauto].
  - right. right.
    assert (Htid : task_id event = Task_id task).
    { destruct (date_id_total now_id) as [eid Heid].
      rewrite (Event_init_task_id_only _ _ now_lap _ Heid) in Hinit.
      ret_inv. reflexivity. }
    exists task, event. split; [exact H|].
    split; [apply Hok; exact Hchk|]. split; [exact Ht|].
    split; [exact Hinit|]. split; assumption.
Qed.

Lemma all_match_spec_class_iff name :
  Re.all_match SpecNameClass name = true <-> check_name name = OK.
Proof.
  split; [apply check_name_ok|].
  intros H. destruct (Re.all_match SpecNameClass name) eqn:E; [reflexivity|].
  rewrite (check_name_err name E) in H. discriminate.
Qed.

(** X15. The command [add]: when [check_name] rejects the name, it prints
    the text of the name error and storage is untouched, whatever
    [db.insert_task] would do; when [check_name] accepts it, the task
    given to [db.insert_task] has that name and alias and an id of four
    characters of [0-9a-z], and the command prints "Task added: " and the
    task when the insertion succeeds, or the text of its error. *)
Theorem add_checks_name_before_insert
  (insert_task : Db.Conn -> Task -> Db.Conn * Result unit MultiText)
  (conn : Db.Conn) (lang : Lang) (randrange : Z -> Z -> Z) (name alias : string) :
  (forall lo hi, lo < hi -> lo <= randrange lo hi < hi) ->
  (check_name name = Err name_error ->
   add insert_task conn lang randrange name alias
   = Ret (conn, [PText (text lang name_error)])) /\
  (check_name name = OK ->
   exists t_id,
     four_base36 (Ret t_id) /\
     let task := {| Task_id := t_id; Task_name := name; Task_alias := alias |} in
     add insert_task conn lang randrange name alias
     = Ret (fst (insert_task conn task),
            [PText match snd (insert_task conn task) with
                   | Ok _ => ("Task added: " ++ Task_str task)%string
                   | Err e => text lang e
                   end])).
Proof.
  intros Hrange.
  destruct (rand_id_in_range_four randrange Hrange) as (fresh & Hfresh & Hfour).
  assert (Hrun : new_task (<["name" := VStr name]> {[ "alias" := VStr alias ]}) randrange
                 = match err (check_name name) with
                   | None => Ret (Ok {| Task_id := fresh; Task_name := name;
                                        Task_alias := alias |})
                   | Some e => Ret (Err e)
                   end).
  { unfold new_task. rewrite Hfresh. cbn [mbind Py_bind].
    unfold get_str, item_str.
    rewrite lookup_insert_eq.
    rewrite !lookup_insert_ne by discriminate.
    rewrite lookup_singleton_eq, lookup_singleton_ne by discriminate.
    reflexivity. }
  split.
  - intros Hbad. unfold add. rewrite Hrun, Hbad. reflexivity.
  - intros Hgood. exists fresh. split; [exists fresh; split; [reflexivity|exact Hfour]|].
    cbv zeta. unfold add. rewrite Hrun, Hgood. cbn [err OK mbind Py_bind].
    destruct (insert_task conn _) as [conn' [u|e]]; reflexivity.
Qed.

Lemma add_checks_name_before_insert_witness :
  let conn := {| Db.tasks := []; Db.events := [] |} in
  let insert_task := fun (c : Db.Conn) (t : Task) =>
    ({| Db.tasks := Db.tasks c ++ [t]; Db.events := Db.events c |},
     Ok (E:=MultiText) tt) in
  add insert_task conn lang_en (fun lo _ => lo) "my task" ""
  = Ret (conn, [PText (text lang_en name_error)]).
Proof.
  cbv zeta.
  apply (add_checks_name_before_insert _ _ lang_en (fun lo _ => lo) "my task" "").
  - intros lo hi Hlt. lia.
  - reflexivity.
Defined.

End MoreCommands.

(** ** What is shown *)

Section Shown.

(** X16. [format_time_len(s)] gives [s] to [timedelta] as a number of
    days: the text is "0:00:00" for 0 and otherwise [s], " day" or
    " days", and the clock part "0:00:00", whatever the number of seconds
    [s] is; beyond 999999999 days it raises [OverflowError]. *)
Theorem format_time_len_counts_days (s : Z) :
  (Z.abs s <= 999999999 ->
   format_time_len s
   = Ret ((if (s =? 0)%Z then ""
           else decimal s ++ " day" ++ (if (Z.abs s =? 1)%Z then "" else "s") ++ ", ")
            ++ "0:00:00")%string) /\
  (Z.abs s > 999999999 -> format_time_len s = Raise OverflowError).
Proof.
  unfold format_time_len, timedelta_of_days. split; intros Hs.
  - rewrite bool_decide_eq_false_2 by lia. cbn [mbind Py_bind].
    unfold timedelta_str. cbn [td_days td_seconds td_microseconds].
    change (decimal (0 / 60 / 60) ++ ":" ++ decimal_padded 2 (0 / 60 mod 60)
              ++ ":" ++ decimal_padded 2 (0 mod 60))%string with "0:00:00".
    cbn [Z.eqb negb].
    destruct (s =? 0); destruct (Z.abs s =? 1); cbn [negb];
      rewrite ?str_app_assoc; reflexivity.
  - rewrite bool_decide_eq_true_2 by lia. reflexivity.
Qed.

Lemma format_time_len_counts_days_witness :
  format_time_len 400 = Ret "400 days, 0:00:00" /\
  format_time_len (10 ^ 9) = Raise OverflowError.
Proof.
  split.
  - apply (format_time_len_counts_days 400). lia.
  - apply (format_time_len_counts_days (10 ^ 9)). lia.
Defined.

Lemma allowed_char_not_space name :
  Re.all_match SpecNameClass name = true ->
  forall s1 s2, name <> (s1 ++ String " " s2)%string.
Proof.
  induction name as [|c name IH]; intros Hall s1 s2 Heq.
  - destruct s1; discriminate.
  - cbn [Re.all_match] in Hall. apply andb_prop in Hall as [Hc Hall].
    destruct s1 as [|c1 s1].
    + injection Heq as -> _. discriminate.
    + rewrite str_app_cons in Heq. injection Heq as _ Heq.
      exact (IH Hall _ _ Heq).
Qed.

Lemma split_at_space n1 n2 r1 r2 :
  Re.all_match SpecNameClass n1 = true ->
  Re.all_match SpecNameClass n2 = true ->
  (n1 ++ String " " r1)%string = (n2 ++ String " " r2)%string ->
  n1 = n2 /\ r1 = r2.
Proof.
  revert n2. induction n1 as [|c n1 IH]; intros n2 H1 H2 Heq.
  - destruct n2 as [|c2 n2].
    + injection Heq as <-. split; reflexivity.
    + rewrite str_app_cons in Heq. injection Heq as <- _.
      cbn [Re.all_match] in H2. discriminate.
  - destruct n2 as [|c2 n2].
    + rewrite str_app_cons in Heq. injection Heq as -> _.
      cbn [Re.all_match] in H1. discriminate.
    + rewrite !str_app_cons in Heq. injection Heq as <- Heq.
      cbn [Re.all_match] in H1, H2.
      apply andb_prop in H1 as [_ H1]. apply andb_prop in H2 as [_ H2].
      destruct (IH n2 H1 H2 Heq) as [<- <-]. split; reflexivity.
Qed.

Lemma str_app_inv_tail (a1 a2 : string) c :
  (a1 ++ String c "")%string = (a2 ++ String c "")%string -> a1 = a2.
Proof.
  revert a2. induction a1 as [|x a1 IH]; intros a2 Heq.
  - destruct a2 as [|y a2]; [reflexivity|].
    rewrite str_app_cons in Heq. injection Heq as _ Heq.
    destruct a2; discriminate.
  - destruct a2 as [|y a2].
    + rewrite str_app_cons in Heq. injection Heq as _ Heq.
      destruct a1; discriminate.
    + rewrite !str_app_cons in Heq. injection Heq as <- Heq.
      f_equal. exact (IH _ Heq).
Qed.

(** X17. The text of a task, [str(task)], tells its name and its alias
    when [check_name] accepts the name, whatever characters the alias has:
    two such tasks with the same text have the same name and the same
    alias. *)
Theorem task_text_tells_name_and_alias (t1 t2 : Task) :
  check_name (Task_name t1) = OK -> check_name (Task_name t2) = OK ->
  Task_str t1 = Task_str t2 ->
  Task_name t1 = Task_name t2 /\ Task_alias t1 = Task_alias t2.
Proof.
  intros H1 H2. apply all_match_spec_class_iff in H1, H2.
  unfold Task_str.
  destruct (String.eqb_spec (Task_alias t1) "") as [E1|E1];
    destruct (String.eqb_spec (Task_alias t2) "") as [E2|E2]; cbn [negb]; intros Heq.
  - split; congruence.
  - exfalso. exact (allowed_char_not_space _ H1 _ _ Heq).
  - exfalso. symmetry in Heq. exact (allowed_char_not_space _ H2 _ _ Heq).
  - change (" (" ++ ?a ++ ")")%string with (String " " ("(" ++ a ++ ")")) in Heq.
    destruct (split_at_space _ _ _ _ H1 H2 Heq) as [Hn Hr].
    split; [exact Hn|].
    change ("(" ++ ?a ++ ")")%string with (String "(" (a ++ ")")) in Hr.
    injection Hr as Hr. exact (str_app_inv_tail _ _ _ Hr).
Qed.

Lemma task_text_tells_name_and_alias_witness :
  let t1 := {| Task_id := "1000"; Task_name := "code"; Task_alias := "a) (b" |} in
  let t2 := {| Task_id := "zzzz"; Task_name := "code"; Task_alias := "a) (b" |} in
  Task_str t1 = "code (a) (b)" /\
  Task_name t1 = Task_name t2 /\ Task_alias t1 = Task_alias t2.
Proof.
  cbv zeta. split; [reflexivity|].
  apply (task_text_tells_name_and_alias
           {| Task_id := "1000"; Task_name := "code"; Task_alias := "a) (b" |}
           {| Task_id := "zzzz"; Task_name := "code"; Task_alias := "a) (b" |});
    reflexivity.
Defined.

End Shown.
